(** * google-oauth-refresh.py : a shallow embedding

    Model of [scripts/google-oauth-refresh.py]: the callback handler
    [OAuthCallbackHandler.do_GET], [get_credentials], and [main] with its
    authorization URL, its single-request listener loop and its token
    exchange.  The standard-library routines the script relies on
    ([urllib.parse.urlencode], [quote_plus], [urlsplit], [parse_qs],
    [unquote], [bytes.decode], [json.loads], [repr]) are modelled after
    CPython 3.12.

    A Python [str] is modelled as its list of code points ([list Z]);
    a [bytes] value as its list of byte values ([list Z], each 0..255). *)

From Stdlib Require Import ZArith List String Ascii Bool Lia.
Import ListNotations.
Open Scope Z_scope.

Definition str := list Z.

(** ASCII literal as a Python string. *)
Fixpoint lit (s : string) : str :=
  match s with
  | EmptyString => []
  | String a s' => Z.of_nat (nat_of_ascii a) :: lit s'
  end.

Definition nl : str := [10].
Definition dq : str := [34].

(** Decimal rendering of a non-negative integer (Python [str(int)]). *)
Fixpoint digits_rev (fuel : nat) (n : Z) : str :=
  match fuel with
  | O => []
  | S f => if n <? 10 then [48 + n] else (48 + n mod 10) :: digits_rev f (n / 10)
  end.

Definition int_repr (n : Z) : str :=
  if n <? 0 then 45 :: rev (digits_rev (Z.to_nat (Z.log2 (- n) + 2)) (- n))
  else rev (digits_rev (Z.to_nat (Z.log2 n + 2)) n).

(** ** Text helpers (str.split, str.find, str.replace, str.join) *)

(** [s.split(sep)] for a one-character separator. *)
Fixpoint split_on (sep : Z) (s : str) : list str :=
  match s with
  | [] => [[]]
  | c :: s' =>
      if c =? sep then [] :: split_on sep s'
      else match split_on sep s' with
           | w :: ws => (c :: w) :: ws
           | [] => [[c]]
           end
  end.

(** [s.split(sep, 1)]: the part before the first [sep] and, when [sep]
    occurs, the part after it. *)
Fixpoint split_first (sep : Z) (s : str) : str * option str :=
  match s with
  | [] => ([], None)
  | c :: s' =>
      if c =? sep then ([], Some s')
      else let '(a, b) := split_first sep s' in (c :: a, b)
  end.

Definition replace_char (a b : Z) (s : str) : str :=
  map (fun c => if c =? a then b else c) s.

Fixpoint join (sep : str) (ws : list str) : str :=
  match ws with
  | [] => []
  | [w] => w
  | w :: ws' => w ++ sep ++ join sep ws'
  end.

(** ** UTF-8 (CPython's codec) *)

Definition is_surrogate (c : Z) : bool := (55296 <=? c) && (c <=? 57343).

(** [str.encode('utf-8')] with [errors='strict']: [None] is the
    [UnicodeEncodeError] raised on a lone surrogate. *)
Definition utf8_encode_char (c : Z) : option (list Z) :=
  if c <? 128 then Some [c]
  else if c <? 2048 then Some [192 + c / 64; 128 + c mod 64]
  else if is_surrogate c then None
  else if c <? 65536 then
    Some [224 + c / 4096; 128 + (c / 64) mod 64; 128 + c mod 64]
  else Some [240 + c / 262144; 128 + (c / 4096) mod 64;
             128 + (c / 64) mod 64; 128 + c mod 64].

Fixpoint utf8_encode (s : str) : option (list Z) :=
  match s with
  | [] => Some []
  | c :: s' =>
      match utf8_encode_char c, utf8_encode s' with
      | Some b, Some bs => Some (b ++ bs)
      | _, _ => None
      end
  end.

Definition is_cont (b : Z) : bool := (128 <=? b) && (b <=? 191).

(** Range allowed for the second byte of a 3- or 4-byte sequence. *)
Definition second_ok (b1 b2 : Z) : bool :=
  if b1 =? 224 then (160 <=? b2) && (b2 <=? 191)
  else if b1 =? 237 then (128 <=? b2) && (b2 <=? 159)
  else if b1 =? 240 then (144 <=? b2) && (b2 <=? 191)
  else if b1 =? 244 then (128 <=? b2) && (b2 <=? 143)
  else is_cont b2.

(** The UTF-8 decoder: [Some c] for a decoded code point, [None] for
    each maximal ill-formed subpart (what [errors='replace'] turns into
    one U+FFFD and what [errors='strict'] rejects). *)
Fixpoint utf8_dec (bs : list Z) : list (option Z) :=
  match bs with
  | [] => []
  | b1 :: r1 =>
      if b1 <? 128 then Some b1 :: utf8_dec r1
      else if (194 <=? b1) && (b1 <=? 223) then
        match r1 with
        | b2 :: r2 =>
            if is_cont b2 then Some ((b1 - 192) * 64 + (b2 - 128)) :: utf8_dec r2
            else None :: utf8_dec r1
        | [] => [None]
        end
      else if (224 <=? b1) && (b1 <=? 239) then
        match r1 with
        | b2 :: r2 =>
            if second_ok b1 b2 then
              match r2 with
              | b3 :: r3 =>
                  if is_cont b3 then
                    Some (((b1 - 224) * 64 + (b2 - 128)) * 64 + (b3 - 128))
                      :: utf8_dec r3
                  else None :: utf8_dec r2
              | [] => [None]
              end
            else None :: utf8_dec r1
        | [] => [None]
        end
      else if (240 <=? b1) && (b1 <=? 244) then
        match r1 with
        | b2 :: r2 =>
            if second_ok b1 b2 then
              match r2 with
              | b3 :: r3 =>
                  if is_cont b3 then
                    match r3 with
                    | b4 :: r4 =>
                        if is_cont b4 then
                          Some ((((b1 - 240) * 64 + (b2 - 128)) * 64
                                 + (b3 - 128)) * 64 + (b4 - 128))
                            :: utf8_dec r4
                        else None :: utf8_dec r3
                    | [] => [None]
                    end
                  else None :: utf8_dec r2
              | [] => [None]
              end
            else None :: utf8_dec r1
        | [] => [None]
        end
      else None :: utf8_dec r1
  end.

(** [bytes.decode('utf-8', 'replace')]. *)
Definition decode_replace (bs : list Z) : str :=
  map (fun o => match o with Some c => c | None => 65533 end) (utf8_dec bs).

(** [bytes.decode()] (strict): [None] is the [UnicodeDecodeError]. *)
Fixpoint all_some (l : list (option Z)) : option str :=
  match l with
  | [] => Some []
  | Some c :: l' => option_map (cons c) (all_some l')
  | None :: _ => None
  end.

Definition decode_strict (bs : list Z) : option str := all_some (utf8_dec bs).

(** ** urllib.parse *)

(** [_ALWAYS_SAFE]: ASCII letters, digits and [_.-~]. *)
Definition always_safe (b : Z) : bool :=
  ((65 <=? b) && (b <=? 90)) || ((97 <=? b) && (b <=? 122))
  || ((48 <=? b) && (b <=? 57))
  || (b =? 95) || (b =? 46) || (b =? 45) || (b =? 126).

Definition hex_upper (d : Z) : Z := if d <? 10 then 48 + d else 55 + d.

(** One byte as [quote_plus(..., safe='')] renders it: always-safe bytes
    unchanged, the space (kept by [quote(s, safe + ' ')]) then replaced by
    ['+'], every other byte as ['%XX'] with upper-case hex digits. *)
Definition quote_plus_byte (b : Z) : str :=
  if always_safe b then [b]
  else if b =? 32 then [43]
  else [37; hex_upper (b / 16); hex_upper (b mod 16)].

(** [quote_plus(s, safe='')]: the text is UTF-8 encoded ([strict]), so a
    lone surrogate raises ([None]); both branches of [quote_plus] (with or
    without a space in [s]) come to this byte-wise rendering. *)
Definition quote_plus (s : str) : option str :=
  option_map (flat_map quote_plus_byte) (utf8_encode s).

(** [urlencode(d)] for a dict [d] of [str] keys and values, in insertion
    order: ['&'.join(quote_plus(k) + '=' + quote_plus(v))]. *)
Fixpoint urlencode_pairs (kvs : list (str * str)) : option (list str) :=
  match kvs with
  | [] => Some []
  | (k, v) :: kvs' =>
      match quote_plus k, quote_plus v, urlencode_pairs kvs' with
      | Some qk, Some qv, Some rest => Some ((qk ++ [61] ++ qv) :: rest)
      | _, _, _ => None
      end
  end.

Definition urlencode (kvs : list (str * str)) : option str :=
  option_map (join [38]) (urlencode_pairs kvs).

Definition is_hex (c : Z) : bool :=
  ((48 <=? c) && (c <=? 57)) || ((65 <=? c) && (c <=? 70))
  || ((97 <=? c) && (c <=? 102)).

Definition is_digit (c : Z) : bool := (48 <=? c) && (c <=? 57).

Definition hex_val (c : Z) : Z :=
  if c <=? 57 then c - 48 else if c <=? 70 then c - 55 else c - 87.

(** [_unquote_impl] on an ASCII run: the run is split at ['%']; every
    piece after a ['%'] whose first two characters are hex digits yields
    that byte, any other piece is kept with its ['%'].  Scanning left to
    right gives the same bytes. *)
Fixpoint pct_decode (s : list Z) : list Z :=
  match s with
  | [] => []
  | c :: t =>
      if c =? 37 then
        match t with
        | h1 :: h2 :: r =>
            if is_hex h1 && is_hex h2 then (hex_val h1 * 16 + hex_val h2) :: pct_decode r
            else 37 :: pct_decode t
        | _ => 37 :: pct_decode t
        end
      else c :: pct_decode t
  end.

Definition decode_run (run : str) : str :=
  match run with [] => [] | _ => decode_replace (pct_decode run) end.

(** [_generate_unquoted_parts]: maximal ASCII runs are percent-decoded
    and decoded as UTF-8 with [errors='replace']; non-ASCII characters
    are kept. *)
Fixpoint unquote_go (run : str) (s : str) : str :=
  match s with
  | [] => decode_run run
  | c :: s' =>
      if c <? 128 then unquote_go (run ++ [c]) s'
      else decode_run run ++ c :: unquote_go [] s'
  end.

(** [unquote(s)]: a string without ['%'] is returned as it is. *)
Definition unquote (s : str) : str :=
  if existsb (Z.eqb 37) s then unquote_go [] s else s.

Definition unquote_plus (s : str) : str := unquote (replace_char 43 32 s).

(** [urlsplit(url).query], when [urlsplit] does not raise (see
    [urlsplit_ok] below): tab, CR and LF are removed, the fragment is cut at
    the first ['#'], and the query is what follows the first ['?'].
    Stripping leading C0 characters and splitting off the scheme and the
    network location never move these two separators. *)
Definition remove_unsafe (u : str) : str :=
  filter (fun c => negb ((c =? 9) || (c =? 13) || (c =? 10))) u.

Definition urlsplit_query (u : str) : str :=
  let u1 := fst (split_first 35 (remove_unsafe u)) in
  match snd (split_first 63 u1) with
  | Some q => q
  | None => []
  end.

(** *** When [urlsplit] raises [ValueError]

    [urlsplit] checks the network location: the text after ['//'] once
    leading C0 controls and spaces are stripped, tab, CR and LF removed and
    a scheme split off, up to the first ['/'], ['?'] or ['#'].  It raises
    when the location has only one of ['['] and [']'], when a bracketed
    location fails [_check_bracketed_netloc], and when [_checknetloc]
    finds a character that NFKC normalization turns into a separator. *)

Definition is_nil {A} (l : list A) : bool := match l with [] => true | _ => false end.

(** [url.lstrip(_WHATWG_C0_CONTROL_OR_SPACE)] *)
Fixpoint lstrip_c0 (s : str) : str :=
  match s with
  | c :: s' => if (0 <=? c) && (c <=? 32) then lstrip_c0 s' else s
  | [] => []
  end.

Definition is_ascii_alpha (c : Z) : bool :=
  ((65 <=? c) && (c <=? 90)) || ((97 <=? c) && (c <=? 122)).

(** [scheme_chars]: ASCII letters, digits and [+-.]. *)
Definition scheme_char (c : Z) : bool :=
  is_ascii_alpha c || is_digit c || (c =? 43) || (c =? 45) || (c =? 46).

(** [i = url.find(':')]: when [i > 0], [url[0]] is an ASCII letter and every
    character of [url[:i]] is a scheme character, the scheme is split off
    and the rest is [url[i+1:]]. *)
Definition after_scheme (u : str) : str :=
  match split_first 58 u with
  | (c :: sch, Some rest) => if is_ascii_alpha c && forallb scheme_char sch then rest else u
  | _ => u
  end.

Fixpoint take_until (p : Z -> bool) (s : str) : str :=
  match s with
  | c :: s' => if p c then [] else c :: take_until p s'
  | [] => []
  end.

(** [if url[:2] == '//': netloc, url = _splitnetloc(url, 2)] *)
Definition netloc_of (u : str) : option str :=
  match u with
  | a :: b :: r =>
      if (a =? 47) && (b =? 47)
      then Some (take_until (fun c => (c =? 47) || (c =? 63) || (c =? 35)) r)
      else None
  | _ => None
  end.

(** [s.rpartition(sep)[2]] *)
Definition after_last (sep : Z) (s : str) : str := rev (fst (split_first sep (rev s))).

(** [int(s, 10)] on ASCII digits. *)
Definition dec_value (s : str) : Z := fold_left (fun n c => n * 10 + (c - 48)) s 0.

(** [IPv4Address._parse_octet] succeeds. *)
Definition octet_ok (o : str) : bool :=
  match o with
  | [] => false                                          (* Empty octet *)
  | c :: r =>
      forallb is_digit o && (List.length o <=? 3)%nat
      && (match r with [] => true | _ => negb (c =? 48) end)   (* leading zero *)
      && (dec_value o <=? 255)
  end.

(** [IPv4Address(s)] succeeds. *)
Definition ipv4_ok (s : str) : bool :=
  negb (existsb (Z.eqb 47) s) && negb (is_nil s)
  && (List.length (split_on 46 s) =? 4)%nat && forallb octet_ok (split_on 46 s).

(** [IPv6Address._parse_hextet] succeeds ([int('', 16)] raises). *)
Definition hextet_ok (h : str) : bool :=
  forallb is_hex h && (List.length h <=? 4)%nat && negb (is_nil h).

(** [IPv6Address._ip_int_from_string], from the point where an IPv4 suffix
    has been replaced by two hextets: at most 9 parts; at most one empty
    part strictly inside ([::]); with it, an empty first (last) part must
    belong to a leading (trailing) [::] and at least one hextet is skipped;
    without it, exactly 8 parts.  The parts before and after the skip are
    parsed as hextets. *)
Definition ipv6_parts_ok (ps : list str) : bool :=
  let n := List.length ps in
  let first_empty := is_nil (nth 0 ps []) in
  let last_empty := is_nil (last ps []) in
  (n <=? 9)%nat &&
  match filter (fun i => is_nil (nth i ps [])) (seq 1 (n - 2)) with
  | [] =>
      (n =? 8)%nat && negb first_empty && negb last_empty && forallb hextet_ok ps
  | [k] =>
      let hi := if first_empty then (k - 1)%nat else k in
      let lo := if last_empty then (n - k - 2)%nat else (n - k - 1)%nat in
      (if first_empty then (k =? 1)%nat else true)
      && (if last_empty then (n - k =? 2)%nat else true)
      && (hi + lo <=? 7)%nat
      && forallb hextet_ok (firstn hi ps) && forallb hextet_ok (skipn (n - lo) ps)
  | _ => false
  end.

Definition ipv6_addr_ok (a : str) : bool :=
  let parts := split_on 58 a in
  negb (is_nil a) && (3 <=? List.length parts)%nat &&
  (if existsb (Z.eqb 46) (last parts [])
   then ipv4_ok (last parts []) && ipv6_parts_ok (removelast parts ++ [[48]; [48]])
   else ipv6_parts_ok parts).

(** [IPv6Address(s)] succeeds: no ['/'], and a scope id after ['%'] is
    non-empty and holds no further ['%']. *)
Definition ipv6_ok (s : str) : bool :=
  negb (existsb (Z.eqb 47) s) &&
  match split_first 37 s with
  | (addr, None) => ipv6_addr_ok addr
  | (addr, Some scope) =>
      negb (is_nil scope) && negb (existsb (Z.eqb 37) scope) && ipv6_addr_ok addr
  end.

(** [re.match(r"\Av[a-fA-F0-9]+\..+\Z", h)] *)
Definition ipvfuture_ok (h : str) : bool :=
  match h with
  | 118 :: r =>
      match split_first 46 r with
      | (hx, Some rest) =>
          negb (is_nil hx) && forallb is_hex hx
          && negb (is_nil rest) && forallb (fun c => negb (c =? 10)) rest
      | (_, None) => false
      end
  | _ => false
  end.

(** [_check_bracketed_host]: [ip_address] raises unless the host is an IPv4
    or an IPv6 address, and an IPv4 address is refused. *)
Definition bracketed_host_ok (h : str) : bool :=
  match h with
  | 118 :: _ => ipvfuture_ok h
  | _ => negb (ipv4_ok h) && ipv6_ok h
  end.

(** [_check_bracketed_netloc] *)
Definition bracketed_netloc_ok (netloc : str) : bool :=
  let hp := after_last 64 netloc in
  match split_first 91 hp with
  | ([], Some bracketed) =>
      let '(hostname, port) := split_first 93 bracketed in
      (match port with Some (c :: _) => c =? 58 | _ => true end) && bracketed_host_ok hostname
  | (_ :: _, Some _) => false                      (* data before '[' *)
  | (_, None) => bracketed_host_ok (fst (split_first 58 hp))
  end.

(** The code points whose NFKC normal form contains one of [/ ? # @ :]
    (U+2047-2049, U+2100, U+2101, U+2105, U+2106, U+2A74, U+FE13, U+FE16,
    U+FE55, U+FE56, U+FE5F, U+FE6B, U+FF03, U+FF0F, U+FF1A, U+FF1F, U+FF20). *)
Definition nfkc_separator (c : Z) : bool :=
  existsb (Z.eqb c)
    [8263; 8264; 8265; 8448; 8449; 8453; 8454; 10868; 65043; 65046; 65109;
     65110; 65119; 65131; 65283; 65295; 65306; 65311; 65312].

(** [_checknetloc]: an ASCII location passes; otherwise the NFKC form of the
    location without [@ : # ?] must contain none of [/ ? # @ :].  No
    canonical composition involves these five characters, so this fails
    exactly when one of the location's characters is an [nfkc_separator]. *)
Definition checknetloc_ok (netloc : str) : bool :=
  forallb (fun c => c <? 128) netloc || negb (existsb nfkc_separator netloc).

(** [urlsplit(u)] returns, i.e. raises no [ValueError]. *)
Definition urlsplit_ok (u : str) : bool :=
  match netloc_of (after_scheme (remove_unsafe (lstrip_c0 u))) with
  | None => true
  | Some netloc =>
      let lb := existsb (Z.eqb 91) netloc in
      let rb := existsb (Z.eqb 93) netloc in
      negb (xorb lb rb)                                   (* Invalid IPv6 URL *)
      && (if lb && rb then bracketed_netloc_ok netloc else true)
      && checknetloc_ok netloc
  end.

(** [parse_qsl(qs, keep_blank_values)], separator ['&']. *)
Definition parse_qsl_field (keep_blank : bool) (nv : str) : list (str * str) :=
  match nv with
  | [] => []
  | _ =>
      match split_first 61 nv with
      | (name, None) => if keep_blank then [(unquote_plus name, [])] else []
      | (name, Some value) =>
          match value with
          | [] => if keep_blank then [(unquote_plus name, [])] else []
          | _ => [(unquote_plus name, unquote_plus value)]
          end
      end
  end.

Definition parse_qsl (keep_blank : bool) (qs : str) : list (str * str) :=
  match qs with
  | [] => []
  | _ => flat_map (parse_qsl_field keep_blank) (split_on 38 qs)
  end.

(** A Python dict from [str] keys, as an association list in insertion
    order. *)
Definition dict (V : Type) := list (str * V).

Fixpoint dict_get {V} (d : dict V) (k : str) : option V :=
  match d with
  | [] => None
  | (k', v) :: d' => if list_eq_dec Z.eq_dec k k' then Some v else dict_get d' k
  end.

(** [d[k] = v]: an existing key keeps its position. *)
Fixpoint dict_set {V} (d : dict V) (k : str) (v : V) : dict V :=
  match d with
  | [] => [(k, v)]
  | (k', v') :: d' =>
      if list_eq_dec Z.eq_dec k k' then (k', v) :: d' else (k', v') :: dict_set d' k v
  end.

(** [parse_qs(qs)]: values of a repeated name are collected in order. *)
Definition parse_qs_add (d : dict (list str)) (kv : str * str) : dict (list str) :=
  let '(k, v) := kv in
  match dict_get d k with
  | Some vs => dict_set d k (vs ++ [v])
  | None => dict_set d k [v]
  end.

Definition parse_qs (qs : str) : dict (list str) :=
  fold_left parse_qs_add (parse_qsl false qs) [].

(** ** The callback handler ([OAuthCallbackHandler]) *)

Definition success_page : str :=
  nl ++ lit "                <html><body style=" ++ dq
  ++ lit "font-family: sans-serif; padding: 40px; text-align: center;" ++ dq
  ++ lit ">" ++ nl
  ++ lit "                <h1>Authorization successful!</h1>" ++ nl
  ++ lit "                <p>You can close this window and return to the terminal.</p>" ++ nl
  ++ lit "                </body></html>" ++ nl
  ++ lit "            ".

Definition error_page (error : str) : str :=
  nl ++ lit "                <html><body style=" ++ dq
  ++ lit "font-family: sans-serif; padding: 40px; text-align: center;" ++ dq
  ++ lit ">" ++ nl
  ++ lit "                <h1>Authorization failed</h1>" ++ nl
  ++ lit "                <p>Error: " ++ error ++ lit "</p>" ++ nl
  ++ lit "                </body></html>" ++ nl
  ++ lit "            ".

(** What one call of the handler sends back. *)
Inductive reply :=
| Response (status : Z) (body : str)   (* send_response + headers + body *)
| SendError (status : Z)               (* BaseHTTPRequestHandler.send_error *)
| HandlerException.                    (* exception inside the handler *)

(** [do_GET], on the module-level [auth_code]: the new value of
    [auth_code] and the reply. *)
Definition do_GET (auth_code : option str) (path : str) : option str * reply :=
  if negb (urlsplit_ok path) then (auth_code, HandlerException)  (* ValueError *)
  else
  let query := parse_qs (urlsplit_query path) in
  match dict_get query (lit "code") with
  | Some vs =>
      match vs with
      | code :: _ => (Some code, Response 200 success_page)
      | [] => (auth_code, HandlerException)          (* IndexError *)
      end
  | None =>
      match dict_get query (lit "error") with
      | Some es =>
          match es with
          | error :: _ => (auth_code, Response 400 (error_page error))
          | [] => (auth_code, HandlerException)
          end
      | None => (auth_code, Response 400 (error_page (lit "Unknown error")))
      end
  end.

Record request := { method : str; path : str }.

(** [parse_request] (gh-87389): a target that starts with ['//'] is
    reduced to a single leading ['/'] before it becomes [self.path]. *)
Fixpoint lstrip_slash (s : str) : str :=
  match s with
  | c :: s' => if c =? 47 then lstrip_slash s' else s
  | [] => []
  end.

Definition request_path (p : str) : str :=
  match p with
  | a :: b :: _ => if (a =? 47) && (b =? 47) then 47 :: lstrip_slash p else p
  | _ => p
  end.

(** [handle_one_request]: only [do_GET] is defined, any other method is
    answered by [send_error(501)]. *)
Definition handle (auth_code : option str) (r : request) : option str * reply :=
  if list_eq_dec Z.eq_dec (method r) (lit "GET") then do_GET auth_code (request_path (path r))
  else (auth_code, SendError 501).

(** ** Effects of the script *)

Inductive event :=
| Out (s : str)                  (* print(s) *)
| Prompt (s : str)               (* input(s) writes the prompt *)
| Listen                         (* HTTPServer(("localhost", 8080), ...) *)
| Browser (url : str)            (* webbrowser.open(url) *)
| Served (r : reply)             (* one server.handle_request() *)
| ServerClose                    (* server.server_close() *)
| Post (url : str) (data : str)  (* urlopen(Request(..., method="POST")) *)
| Traceback.                     (* uncaught exception reported on stderr *)

Inductive outcome :=
| Exited (code : Z)   (* sys.exit(code), normal end (0), uncaught exception (1) *)
| Blocked.            (* handle_request() waiting for a connection forever *)

(** [while auth_code is None: server.handle_request()], on the incoming
    requests in order; [auth_code] is [None] when the loop starts.  The
    result is the replies sent and, when the loop ends, the captured code
    with the requests left unserved; the loop does not end if the
    requests run out first. *)
Fixpoint serve (auth_code : option str) (reqs : list request)
  : list event * option (str * list request) :=
  match auth_code with
  | Some c => ([], Some (c, reqs))
  | None =>
      match reqs with
      | [] => ([], None)
      | r :: rest =>
          let '(a, rep) := handle auth_code r in
          let '(evs, res) := serve a rest in
          (Served rep :: evs, res)
      end
  end.

(** ** JSON values and [json.loads] *)

(** The Python values [json.loads] produces.  A JSON number with a
    fraction or an exponent becomes a [float]; it is kept as its lexeme
    ([NaN], [Infinity], [-Infinity] included). *)
Set Warnings "-register-all".
Inductive pyval :=
| PNone
| PBool (b : bool)
| PInt (n : Z)
| PFloat (lexeme : str)
| PStr (s : str)
| PList (l : list pyval)
| PDict (d : dict pyval).

Definition is_ws (c : Z) : bool := (c =? 32) || (c =? 9) || (c =? 10) || (c =? 13).

Fixpoint skip_ws (s : str) : str :=
  match s with
  | c :: s' => if is_ws c then skip_ws s' else s
  | [] => []
  end.

Definition hex4 (a b c d : Z) : option Z :=
  if is_hex a && is_hex b && is_hex c && is_hex d then
    Some (((hex_val a * 16 + hex_val b) * 16 + hex_val c) * 16 + hex_val d)
  else None.

Definition is_high (c : Z) : bool := (55296 <=? c) && (c <=? 56319).
Definition is_low (c : Z) : bool := (56320 <=? c) && (c <=? 57343).

(** [scanstring] (strict): the characters of a string literal after its
    opening quote, and the text after its closing quote. *)
Fixpoint scanstring (s : str) : option (str * str) :=
  let cons_res c r := option_map (fun '(x, t) => (c :: x, t)) r in
  match s with
  | [] => None                                       (* Unterminated string *)
  | 34 :: r => Some ([], r)
  | 92 :: 117 :: h1 :: h2 :: h3 :: h4 :: r =>
      match hex4 h1 h2 h3 h4 with
      | None => None                                 (* Invalid \uXXXX escape *)
      | Some c =>
          if is_high c then
            match r with
            | 92 :: 117 :: l1 :: l2 :: l3 :: l4 :: r2 =>
                match hex4 l1 l2 l3 l4 with
                | None => None
                | Some c2 =>
                    if is_low c2
                    then cons_res ((c - 55296) * 1024 + (c2 - 56320) + 65536) (scanstring r2)
                    else cons_res c (scanstring r)
                end
            | _ => cons_res c (scanstring r)
            end
          else cons_res c (scanstring r)
      end
  | 92 :: e :: r =>
      if e =? 34 then cons_res 34 (scanstring r)
      else if e =? 92 then cons_res 92 (scanstring r)
      else if e =? 47 then cons_res 47 (scanstring r)
      else if e =? 98 then cons_res 8 (scanstring r)
      else if e =? 102 then cons_res 12 (scanstring r)
      else if e =? 110 then cons_res 10 (scanstring r)
      else if e =? 114 then cons_res 13 (scanstring r)
      else if e =? 116 then cons_res 9 (scanstring r)
      else None                                      (* Invalid \escape *)
  | c :: r => if c <? 32 then None                   (* Invalid control character *)
              else cons_res c (scanstring r)
  end.

Fixpoint take_digits (s : str) : str * str :=
  match s with
  | c :: s' => if is_digit c then let '(d, t) := take_digits s' in (c :: d, t) else ([], s)
  | [] => ([], [])
  end.

Fixpoint digits_value (acc : Z) (d : str) : Z :=
  match d with
  | [] => acc
  | c :: d' => digits_value (acc * 10 + (c - 48)) d'
  end.

(** [_match_number]: an optional minus sign, [0] or a non-zero digit
    followed by digits, then optionally a dot with at least one digit, then
    optionally [e] or [E], a sign and at least one digit; an exponent
    without digits is not consumed. *)
Definition match_number (s : str) : option (pyval * str) :=
  let '(sign, s1) := match s with 45 :: t => ([45], t) | _ => ([], s) end in
  let intpart :=
    match s1 with
    | 48 :: t => Some ([48], t)
    | c :: _ => if is_digit c then Some (take_digits s1) else None
    | [] => None
    end in
  match intpart with
  | None => None                                     (* Expecting value *)
  | Some (ip, s2) =>
      let '(frac, s3) :=
        match s2 with
        | 46 :: ((c :: _) as t) =>
            if is_digit c then let '(d, t') := take_digits t in (Some (46 :: d), t')
            else (None, s2)
        | _ => (None, s2)
        end in
      let '(expo, s4) :=
        match s3 with
        | e :: t =>
            if (e =? 101) || (e =? 69) then
              let '(sg, t1) := match t with
                               | c :: t' => if (c =? 45) || (c =? 43) then ([c], t') else ([], t)
                               | [] => ([], t)
                               end in
              match take_digits t1 with
              | ([], _) => (None, s3)
              | (d, t2) => (Some (e :: sg ++ d), t2)
              end
            else (None, s3)
        | [] => (None, s3)
        end in
      match frac, expo with
      | None, None =>
          let v := digits_value 0 ip in
          Some (PInt (if sign then v else - v), s4)
      | _, _ =>
          Some (PFloat (sign ++ ip ++ match frac with Some f => f | None => [] end
                             ++ match expo with Some x => x | None => [] end), s4)
      end
  end.

Definition starts_with (p s : str) : option str :=
  if list_eq_dec Z.eq_dec (firstn (List.length p) s) p then Some (skipn (List.length p) s) else None.

(** [scan_once], [JSONObject] and [JSONArray].  Along any chain of nested
    calls at least one character is consumed between two calls of
    [scan_once] and between a call of [scan_once] and the member loop it
    starts, so [2 * length s + 2] units of fuel are never exhausted. *)
Fixpoint scan_once (fuel : nat) (s : str) : option (pyval * str) :=
  match fuel with
  | O => None
  | S f =>
      match s with
      | 34 :: r => option_map (fun '(x, t) => (PStr x, t)) (scanstring r)
      | 123 :: r =>
          match skip_ws r with
          | 125 :: t => Some (PDict [], t)
          | t => object_members f [] t
          end
      | 91 :: r =>
          match skip_ws r with
          | 93 :: t => Some (PList [], t)
          | t => array_items f [] t
          end
      | _ =>
          match starts_with (lit "null") s with Some t => Some (PNone, t) | None =>
          match starts_with (lit "true") s with Some t => Some (PBool true, t) | None =>
          match starts_with (lit "false") s with Some t => Some (PBool false, t) | None =>
          match starts_with (lit "NaN") s with Some t => Some (PFloat (lit "NaN"), t) | None =>
          match starts_with (lit "Infinity") s with
          | Some t => Some (PFloat (lit "Infinity"), t) | None =>
          match starts_with (lit "-Infinity") s with
          | Some t => Some (PFloat (lit "-Infinity"), t) | None =>
          match_number s
          end end end end end end
      end
  end
with object_members (fuel : nat) (acc : dict pyval) (s : str) : option (pyval * str) :=
  match fuel with
  | O => None
  | S f =>
      match s with
      | 34 :: r =>
          match scanstring r with
          | None => None
          | Some (key, t) =>
              match skip_ws t with
              | 58 :: t1 =>
                  match scan_once f (skip_ws t1) with
                  | None => None
                  | Some (v, t2) =>
                      let acc' := dict_set acc key v in
                      match skip_ws t2 with
                      | 125 :: t3 => Some (PDict acc', t3)
                      | 44 :: t3 => object_members f acc' (skip_ws t3)
                      | _ => None                    (* Expecting ',' delimiter *)
                      end
                  end
              | _ => None                            (* Expecting ':' delimiter *)
              end
          end
      | _ => None                                    (* Expecting property name *)
      end
  end
with array_items (fuel : nat) (acc : list pyval) (s : str) : option (pyval * str) :=
  match fuel with
  | O => None
  | S f =>
      match scan_once f s with
      | None => None
      | Some (v, t) =>
          match skip_ws t with
          | 93 :: t1 => Some (PList (acc ++ [v]), t1)
          | 44 :: t1 => array_items f (acc ++ [v]) (skip_ws t1)
          | _ => None
          end
      end
  end.

(** [json.loads(s)]: [None] is the [JSONDecodeError]. *)
Definition json_loads (s : str) : option pyval :=
  match s with
  | 65279 :: _ => None                               (* Unexpected UTF-8 BOM *)
  | _ =>
      match scan_once (2 * List.length s + 2) (skip_ws s) with
      | Some (v, t) => match skip_ws t with [] => Some v | _ => None end  (* Extra data *)
      | None => None
      end
  end.


(** ** The script *)

Section Script.

(** What the script needs of CPython beyond the code modelled here:
    [repr(float(lexeme))] (shortest round-trip form), whether
    [float(lexeme)] is zero (underflow included), and
    [Py_UNICODE_ISPRINTABLE] on non-ASCII code points (Unicode database). *)
Variable float_repr : str -> str.
Variable float_is_zero : str -> bool.
Variable unicode_printable : Z -> bool.

Definition hex_lower (d : Z) : Z := if d <? 10 then 48 + d else 87 + d.

Fixpoint hex_digits (n : nat) (v : Z) : str :=
  match n with
  | O => []
  | S n' => hex_digits n' (v / 16) ++ [hex_lower (v mod 16)]
  end.

(** [unicode_repr]: the quote is ['"'] when the text has a ['\''] and no
    ['"'], otherwise ['\'']. *)
Definition str_repr (s : str) : str :=
  let quote := if existsb (Z.eqb 39) s && negb (existsb (Z.eqb 34) s) then 34 else 39 in
  let esc c :=
    if (c =? quote) || (c =? 92) then [92; c]
    else if c =? 9 then [92; 116]
    else if c =? 10 then [92; 110]
    else if c =? 13 then [92; 114]
    else if (c <? 32) || (c =? 127) then 92 :: 120 :: hex_digits 2 c
    else if c <? 127 then [c]
    else if unicode_printable c then [c]
    else if c <=? 255 then 92 :: 120 :: hex_digits 2 c
    else if c <=? 65535 then 92 :: 117 :: hex_digits 4 c
    else 92 :: 85 :: hex_digits 8 c in
  [quote] ++ flat_map esc s ++ [quote].

(** [repr(v)]. *)
Fixpoint py_repr (v : pyval) : str :=
  match v with
  | PNone => lit "None"
  | PBool true => lit "True"
  | PBool false => lit "False"
  | PInt n => int_repr n
  | PFloat x => float_repr x
  | PStr s => str_repr s
  | PList l => [91] ++ join (lit ", ") (map py_repr l) ++ [93]
  | PDict d =>
      [123] ++ join (lit ", ") (map (fun '(k, x) => str_repr k ++ lit ": " ++ py_repr x) d)
      ++ [125]
  end.

(** [str(v)], as [print] and f-strings use it. *)
Definition py_str (v : pyval) : str :=
  match v with PStr s => s | _ => py_repr v end.

(** [bool(v)]. *)
Definition truthy (v : pyval) : bool :=
  match v with
  | PNone => false
  | PBool b => b
  | PInt n => negb (n =? 0)
  | PFloat x => negb (float_is_zero x)
  | PStr s => negb (match s with [] => true | _ => false end)
  | PList l => negb (match l with [] => true | _ => false end)
  | PDict d => negb (match d with [] => true | _ => false end)
  end.

(** *** Effects: what was written so far, and either a value or the end
    of the process. *)
Definition M (A : Type) := (list event * (A + outcome))%type.

Definition ret {A} (a : A) : M A := ([], inl a).

Definition bind {A B} (m : M A) (k : A -> M B) : M B :=
  match m with
  | (evs, inl a) => let '(evs', r) := k a in (evs ++ evs', r)
  | (evs, inr o) => (evs, inr o)
  end.

Definition emit (e : event) : M unit := ([e], inl tt).
Definition print (s : str) : M unit := emit (Out s).
Definition sys_exit {A} (n : Z) : M A := ([], inr (Exited n)).
(** An uncaught exception: traceback, exit status 1. *)
Definition raise {A} : M A := ([Traceback], inr (Exited 1)).

Local Notation "x <- m ;; k" := (bind m (fun x => k))
  (at level 61, m at next level, right associativity).
Local Notation "' pat <- m ;; k" := (bind m (fun pat => k))
  (at level 61, pat pattern, m at next level, right associativity).
Local Notation "m ;; k" := (bind m (fun _ => k)) (at level 61, right associativity).

Definition or_raise {A} (o : option A) : M A :=
  match o with Some a => ret a | None => raise end.

(** *** [get_credentials] *)

(** [str.isspace()]. *)
Definition py_isspace (c : Z) : bool :=
  ((9 <=? c) && (c <=? 13)) || ((28 <=? c) && (c <=? 32)) || (c =? 133) || (c =? 160)
  || (c =? 5760) || ((8192 <=? c) && (c <=? 8202)) || (c =? 8232) || (c =? 8233)
  || (c =? 8239) || (c =? 8287) || (c =? 12288).

Fixpoint lstrip (s : str) : str :=
  match s with c :: s' => if py_isspace c then lstrip s' else s | [] => [] end.

(** [str.strip()]. *)
Definition strip (s : str) : str := rev (lstrip (rev (lstrip s))).

(** [input(prompt)]: one line of standard input; at end of input
    [EOFError] is raised. *)
Definition input (prompt : str) (stdin : list str) : M (str * list str) :=
  emit (Prompt prompt) ;;
  match stdin with
  | l :: rest => ret (l, rest)
  | [] => raise
  end.

(** [not x] for a value that is a [str] or [None]. *)
Definition missing (x : option str) : bool :=
  match x with None => true | Some [] => true | Some _ => false end.

Definition credential (found : option str) (prompt : str) (stdin : list str)
  : M (str * list str) :=
  if missing found then
    '(line, stdin') <- input prompt stdin ;; ret (strip line, stdin')
  else ret (match found with Some v => v | None => [] end, stdin).

Definition get_credentials (environ : dict str) (stdin : list str) : M (str * str) :=
  let client_id := dict_get environ (lit "GOOGLE_ADS_CLIENT_ID") in
  let client_secret := dict_get environ (lit "GOOGLE_ADS_CLIENT_SECRET") in
  '(client_id', stdin1) <- credential client_id (lit "Enter GOOGLE_ADS_CLIENT_ID: ") stdin ;;
  '(client_secret', _) <- credential client_secret (lit "Enter GOOGLE_ADS_CLIENT_SECRET: ") stdin1 ;;
  ret (client_id', client_secret').

(** *** Constants *)

Definition SCOPES : list str :=
  [lit "https://www.googleapis.com/auth/adwords";
   lit "https://www.googleapis.com/auth/spreadsheets"].

Definition AUTH_URI : str := lit "https://accounts.google.com/o/oauth2/auth".
Definition TOKEN_URI : str := lit "https://oauth2.googleapis.com/token".
Definition REDIRECT_URI : str := lit "http://localhost:8080".

Definition rule : str := repeat 61 60.   (* "=" * 60 *)

(** [auth_params] and [auth_url]. *)
Definition auth_params (client_id : str) : list (str * str) :=
  [(lit "client_id", client_id);
   (lit "redirect_uri", REDIRECT_URI);
   (lit "response_type", lit "code");
   (lit "scope", join (lit " ") SCOPES);
   (lit "access_type", lit "offline");
   (lit "prompt", lit "consent")].

Definition auth_url_of (client_id : str) : option str :=
  option_map (fun q => AUTH_URI ++ [63] ++ q) (urlencode (auth_params client_id)).

(** [token_data], before [.encode()] (the text is ASCII). *)
Definition token_params (client_id client_secret code : str) : list (str * str) :=
  [(lit "client_id", client_id);
   (lit "client_secret", client_secret);
   (lit "code", code);
   (lit "grant_type", lit "authorization_code");
   (lit "redirect_uri", REDIRECT_URI)].

(** What [urlopen] gets from the token endpoint: a 2xx response, an
    error status ([HTTPError]), or no response ([URLError]). *)
Inductive token_reply :=
| TokOK (body : list Z)
| TokHTTPError (status : Z) (body : list Z)
| TokURLError.

(** The listener loop: the requests served, then [Blocked] when no
    request carrying a code ever arrives. *)
Definition wait_for_callback (reqs : list request) : M str :=
  let '(evs, res) := serve None reqs in
  match res with
  | Some (code, _) => (evs, inl code)
  | None => (evs, inr Blocked)
  end.

(** Lines 133-154: the POST to the token endpoint, the reading of its
    answer and [tokens.get("refresh_token")] with its check. *)
Definition token_exchanger (client_id client_secret code : str) (answer : token_reply)
  : M pyval :=
  token_data <- or_raise (urlencode (token_params client_id client_secret code)) ;;
  emit (Post TOKEN_URI token_data) ;;
  tokens <- match answer with
            | TokOK body =>
                text <- or_raise (decode_strict body) ;;
                or_raise (json_loads text)
            | TokHTTPError _ body =>
                text <- or_raise (decode_strict body) ;;
                print (lit "Error: " ++ text) ;;
                sys_exit 1
            | TokURLError => raise
            end ;;
  refresh_token <- match tokens with
                   | PDict d => ret (match dict_get d (lit "refresh_token") with
                                     | Some v => v
                                     | None => PNone
                                     end)
                   | _ => raise                 (* AttributeError: no .get *)
                   end ;;
  if negb (truthy refresh_token) then
    print (lit "Error: No refresh token in response") ;;
    print (lit "Response: " ++ py_str tokens) ;;
    sys_exit 1
  else ret refresh_token.

Record world := {
  environ : dict str;
  stdin_lines : list str;
  port_8080_free : bool;
  incoming : list request;
  token_endpoint : token_reply
}.

(** [main], lines 91-124: banner, credentials and their check, the
    authorization URL, the listener and the browser. *)
Definition prologue (w : world) : M (str * str) :=
  print rule ;;
  print (lit "Google OAuth Refresh Token Generator") ;;
  print (lit "Scopes: Google Ads + Google Sheets") ;;
  print rule ;;
  print [] ;;
  '(client_id, client_secret) <- get_credentials (environ w) (stdin_lines w) ;;
  (match client_id, client_secret with
   | [], _ | _, [] => print (lit "Error: Missing client ID or secret") ;; sys_exit 1
   | _, _ => ret tt
   end) ;;
  auth_url <- or_raise (auth_url_of client_id) ;;
  print (lit "Opening browser for authorization...") ;;
  print (lit "If browser doesn't open, go to:" ++ nl ++ auth_url ++ nl) ;;
  (if port_8080_free w then emit Listen else raise) ;;
  emit (Browser auth_url) ;;
  print (lit "Waiting for authorization...") ;;
  ret (client_id, client_secret).

(** [main], lines 128-166: closing the listener, the token exchange and
    the final report. *)
Definition after_callback (client_id client_secret auth_code : str) (answer : token_reply)
  : M unit :=
  emit ServerClose ;;
  print (nl ++ lit "Exchanging code for tokens...") ;;
  refresh_token <- token_exchanger client_id client_secret auth_code answer ;;
  print [] ;;
  print rule ;;
  print (lit "SUCCESS! Here's your new refresh token:") ;;
  print rule ;;
  print [] ;;
  print (py_str refresh_token) ;;
  print [] ;;
  print rule ;;
  print (lit "Update your .env file:") ;;
  print (lit "GOOGLE_ADS_REFRESH_TOKEN=" ++ py_str refresh_token) ;;
  print rule.

Definition main (w : world) : M unit :=
  '(client_id, client_secret) <- prologue w ;;
  auth_code <- wait_for_callback (incoming w) ;;
  after_callback client_id client_secret auth_code (token_endpoint w).

(** The process: its effects and how it ends (a normal end is status 0). *)
Definition run (w : world) : list event * outcome :=
  match main w with
  | (evs, inl _) => (evs, Exited 0)
  | (evs, inr o) => (evs, o)
  end.

End Script.

(** ** Facts about the query-string parser *)

(** The values of key [k] in a list of pairs, in order. *)
Definition key_is (k : str) (kv : str * str) : bool :=
  if list_eq_dec Z.eq_dec k (fst kv) then true else false.

Definition values_of (k : str) (l : list (str * str)) : list str :=
  map snd (filter (key_is k) l).

Definition nonblank (v : str) : bool := match v with [] => false | _ => true end.

(** Every value given to parameter [k] in the query [q], blank ones
    included ([parse_qsl(q, keep_blank_values=True)]). *)
Definition param_values (k : str) (q : str) : list str := values_of k (parse_qsl true q).

(** The first non-empty value of parameter [k]. *)
Definition first_nonblank (k : str) (q : str) : option str :=
  hd_error (filter nonblank (param_values k q)).

Lemma key_is_pair k k0 v0 :
  key_is k (k0, v0) = if list_eq_dec Z.eq_dec k k0 then true else false.
Proof. reflexivity. Qed.

Lemma dict_get_set {V} (d : dict V) k k' v :
  dict_get (dict_set d k v) k' =
  if list_eq_dec Z.eq_dec k' k then Some v else dict_get d k'.
Proof.
  induction d as [|[k0 v0] d IH]; simpl.
  - destruct (list_eq_dec Z.eq_dec k' k); reflexivity.
  - destruct (list_eq_dec Z.eq_dec k k0) as [->|Hne]; simpl.
    + destruct (list_eq_dec Z.eq_dec k' k0); reflexivity.
    + destruct (list_eq_dec Z.eq_dec k' k0) as [->|Hne'].
      * destruct (list_eq_dec Z.eq_dec k0 k); [congruence|reflexivity].
      * rewrite IH. reflexivity.
Qed.

Lemma fold_parse_qs_add l d k :
  dict_get (fold_left parse_qs_add l d) k =
  match dict_get d k with
  | Some vs => Some (vs ++ values_of k l)
  | None => match values_of k l with [] => None | vs => Some vs end
  end.
Proof.
  revert d. induction l as [|[k0 v0] l IH]; intro d; simpl.
  - unfold values_of; simpl. destruct (dict_get d k); [rewrite app_nil_r|]; reflexivity.
  - rewrite IH. unfold values_of. simpl filter.
    rewrite (key_is_pair k k0 v0).
    destruct (list_eq_dec Z.eq_dec k k0) as [->|Hne]; simpl.
    + destruct (dict_get d k0) eqn:E; rewrite dict_get_set;
        destruct (list_eq_dec Z.eq_dec k0 k0); try congruence.
      * rewrite <- app_assoc. reflexivity.
      * reflexivity.
    + destruct (dict_get d k0); rewrite dict_get_set;
        destruct (list_eq_dec Z.eq_dec k k0); try congruence; reflexivity.
Qed.

Lemma parse_qs_get q k :
  dict_get (parse_qs q) k =
  match values_of k (parse_qsl false q) with [] => None | vs => Some vs end.
Proof. unfold parse_qs. rewrite fold_parse_qs_add. reflexivity. Qed.

Lemma utf8_dec_cons b bs : utf8_dec (b :: bs) <> [].
Proof.
  simpl.
  repeat match goal with
         | |- context [if ?c then _ else _] => destruct c
         | |- context [match ?l with [] => _ | _ :: _ => _ end] => destruct l
         end; discriminate.
Qed.

Lemma pct_decode_cons c t : pct_decode (c :: t) <> [].
Proof.
  simpl. destruct (c =? 37); [|discriminate].
  destruct t as [|h1 [|h2 r]]; try discriminate.
  destruct (is_hex h1 && is_hex h2); discriminate.
Qed.

Lemma decode_run_nonempty run : run <> [] -> decode_run run <> [].
Proof.
  intro H. destruct run as [|c t]; [contradiction|].
  unfold decode_run, decode_replace.
  destruct (pct_decode (c :: t)) eqn:E; [exfalso; exact (pct_decode_cons c t E)|].
  destruct (utf8_dec (z :: l)) eqn:E2; [exfalso; exact (utf8_dec_cons z l E2)|].
  discriminate.
Qed.

Lemma unquote_go_nonempty s : forall run, run ++ s <> [] -> unquote_go run s <> [].
Proof.
  induction s as [|c s IH]; intros run H; simpl.
  - rewrite app_nil_r in H. now apply decode_run_nonempty.
  - destruct (c <? 128).
    + apply IH. rewrite <- app_assoc. simpl. destruct run; discriminate.
    + destruct (decode_run run); discriminate.
Qed.

Lemma unquote_plus_nonempty s : s <> [] -> unquote_plus s <> [].
Proof.
  intro H. unfold unquote_plus, unquote.
  destruct s as [|c t]; [contradiction|]. simpl replace_char.
  destruct (existsb _ _).
  - apply unquote_go_nonempty. discriminate.
  - discriminate.
Qed.

Lemma parse_qsl_field_blank nv :
  parse_qsl_field false nv = filter (fun kv => nonblank (snd kv)) (parse_qsl_field true nv).
Proof.
  unfold parse_qsl_field. destruct nv as [|c t]; [reflexivity|].
  destruct (split_first 61 (c :: t)) as [name [value|]]; simpl; [|reflexivity].
  destruct value as [|x v]; simpl; [reflexivity|].
  destruct (unquote_plus (x :: v)) eqn:E; [exfalso; exact (unquote_plus_nonempty (x :: v) ltac:(discriminate) E)|].
  reflexivity.
Qed.

Lemma parse_qsl_blank q :
  parse_qsl false q = filter (fun kv => nonblank (snd kv)) (parse_qsl true q).
Proof.
  unfold parse_qsl. destruct q as [|c t]; [reflexivity|].
  induction (split_on 38 (c :: t)) as [|nv l IH]; [reflexivity|].
  simpl. rewrite filter_app, IH, parse_qsl_field_blank. reflexivity.
Qed.

Lemma values_of_blank k l :
  values_of k (filter (fun kv => nonblank (snd kv)) l) = filter nonblank (values_of k l).
Proof.
  unfold values_of. induction l as [|[k0 v0] l IH]; [reflexivity|].
  simpl. rewrite key_is_pair.
  destruct (nonblank v0) eqn:E; simpl; rewrite ?key_is_pair;
    destruct (list_eq_dec Z.eq_dec k k0); simpl; rewrite ?E, ?IH; reflexivity.
Qed.

Lemma parse_qs_get_first q k :
  dict_get (parse_qs q) k =
  match filter nonblank (param_values k q) with [] => None | vs => Some vs end.
Proof.
  rewrite parse_qs_get, parse_qsl_blank, values_of_blank. reflexivity.
Qed.

(** [do_GET] in terms of the parameters of the query. *)
Lemma do_GET_spec a p :
  do_GET a p =
  if urlsplit_ok p then
    match first_nonblank (lit "code") (urlsplit_query p) with
    | Some code => (Some code, Response 200 success_page)
    | None =>
        (a, Response 400 (error_page
                            (match first_nonblank (lit "error") (urlsplit_query p) with
                             | Some e => e
                             | None => lit "Unknown error"
                             end)))
    end
  else (a, HandlerException).
Proof.
  unfold do_GET. destruct (urlsplit_ok p); [|reflexivity]. cbv beta iota zeta delta [negb].
  unfold first_nonblank. rewrite !parse_qs_get_first.
  destruct (filter nonblank (param_values (lit "code") (urlsplit_query p))); [|reflexivity].
  destruct (filter nonblank (param_values (lit "error") (urlsplit_query p))); reflexivity.
Qed.

Lemma first_nonblank_some k q c :
  In c (param_values k q) -> c <> [] ->
  exists v, first_nonblank k q = Some v /\ In v (param_values k q).
Proof.
  unfold first_nonblank. intros Hin Hc.
  assert (Hf : In c (filter nonblank (param_values k q))).
  { apply filter_In. split; [exact Hin|]. destruct c; [contradiction|reflexivity]. }
  destruct (filter nonblank (param_values k q)) as [|v vs] eqn:E; [contradiction|].
  exists v. split; [reflexivity|].
  assert (Hv : In v (filter nonblank (param_values k q))) by (rewrite E; left; reflexivity).
  apply filter_In in Hv. tauto.
Qed.

Lemma first_nonblank_none_absent k q :
  param_values k q = [] -> first_nonblank k q = None.
Proof. unfold first_nonblank. intros ->. reflexivity. Qed.

Lemma first_nonblank_none_blank k q :
  (forall v, In v (param_values k q) -> v = []) -> first_nonblank k q = None.
Proof.
  unfold first_nonblank. intro H.
  destruct (filter nonblank (param_values k q)) as [|v vs] eqn:E; [reflexivity|].
  assert (Hv : In v (filter nonblank (param_values k q))) by (rewrite E; left; reflexivity).
  apply filter_In in Hv as [Hin Hnb]. rewrite (H v Hin) in Hnb. discriminate.
Qed.

(** ** Facts about the listener loop and the phases of [main] *)

(** The code the handler records for request [r] when none was recorded
    before, and the reply it sends. *)
Definition handled_code (r : request) : option str := fst (handle None r).












Lemma urlsplit_query_slash s : urlsplit_query (47 :: s) = urlsplit_query s.
Proof.
  unfold urlsplit_query, remove_unsafe. cbn [filter]. cbn -[split_first].
  cbn [split_first]. cbn -[split_first].
  destruct (split_first 35 (filter (fun c => negb ((c =? 9) || (c =? 13) || (c =? 10))) s)) as [a b].
  cbn [fst split_first]. cbn -[split_first].
  destruct (split_first 63 a) as [x [q|]]; reflexivity.
Qed.

Lemma urlsplit_query_lstrip_slash s : urlsplit_query (lstrip_slash s) = urlsplit_query s.
Proof.
  induction s as [|c s IH]; [reflexivity|].
  cbn [lstrip_slash]. destruct (c =? 47) eqn:E; [|reflexivity].
  apply Z.eqb_eq in E. subst c. rewrite IH, urlsplit_query_slash. reflexivity.
Qed.

(** [parse_request]'s reduction of a leading ['//'] does not change the
    query. *)
Lemma urlsplit_query_request_path p : urlsplit_query (request_path p) = urlsplit_query p.
Proof.
  unfold request_path. destruct p as [|c [|d t]]; try reflexivity.
  destruct ((c =? 47) && (d =? 47)); [|reflexivity].
  rewrite urlsplit_query_slash, urlsplit_query_lstrip_slash. reflexivity.
Qed.

(** A request carries a code exactly when it is a GET, [urlparse] accepts
    its path, and the query has a [code] parameter with a non-empty value. *)
Lemma handled_code_spec r :
  handled_code r =
  if list_eq_dec Z.eq_dec (method r) (lit "GET") then
    if urlsplit_ok (request_path (path r)) then first_nonblank (lit "code") (urlsplit_query (path r))
    else None
  else None.
Proof.
  unfold handled_code, handle.
  destruct (list_eq_dec Z.eq_dec (method r) (lit "GET")); [|reflexivity].
  rewrite do_GET_spec, urlsplit_query_request_path.
  destruct (urlsplit_ok (request_path (path r))); [|reflexivity].
  destruct (first_nonblank (lit "code") (urlsplit_query (path r))); reflexivity.
Qed.




Definition is_served (e : event) : bool := match e with Served _ => true | _ => false end.
Definition is_listen (e : event) : bool := match e with Listen => true | _ => false end.
Definition is_post (e : event) : bool := match e with Post _ _ => true | _ => false end.
Definition is_close (e : event) : bool := match e with ServerClose => true | _ => false end.

(** Events that belong to neither the listener nor the token endpoint. *)
Definition local_event (e : event) : bool :=
  negb (is_served e || is_listen e || is_post e || is_close e).

Lemma bind_inl {A B} (evs : list event) (a : A) (k : A -> M B) :
  bind (evs, inl a) k = (evs ++ fst (k a), snd (k a)).
Proof. simpl. destruct (k a). reflexivity. Qed.

Lemma credential_events found prompt stdin :
  forallb local_event (fst (credential found prompt stdin)) = true.
Proof.
  unfold credential, input, bind, emit, ret, raise.
  destruct (missing found); [destruct stdin|]; reflexivity.
Qed.

Lemma get_credentials_events env stdin :
  forallb local_event (fst (get_credentials env stdin)) = true.
Proof.
  unfold get_credentials.
  generalize (dict_get env (lit "GOOGLE_ADS_CLIENT_ID")) (dict_get env (lit "GOOGLE_ADS_CLIENT_SECRET"))
    (lit "Enter GOOGLE_ADS_CLIENT_ID: ") (lit "Enter GOOGLE_ADS_CLIENT_SECRET: ").
  intros f1 f2 p1 p2. unfold bind.
  pose proof (credential_events f1 p1 stdin) as H1.
  destruct (credential f1 p1 stdin) as [evs1 [[cid stdin1]|o]]; cbn [fst snd] in *; [|exact H1].
  pose proof (credential_events f2 p2 stdin1) as H2.
  destruct (credential f2 p2 stdin1) as [evs2 [[sec stdin2]|o]]; unfold ret; cbn [fst snd] in *;
    rewrite ?app_nil_r, forallb_app, H1, H2; reflexivity.
Qed.

(** Unfolding the monad on a concrete program text. *)
Ltac step_M := cbv beta iota zeta delta [bind print emit ret sys_exit raise or_raise]; cbn [app].
Lemma prologue_cases w :
  (exists evs o, prologue w = (evs, inr o) /\ forallb local_event evs = true)
  \/ (exists evs cid sec url,
        prologue w = (evs ++ [Listen; Browser url; Out (lit "Waiting for authorization...")], inl (cid, sec))
        /\ forallb local_event evs = true /\ cid <> [] /\ sec <> [] /\ auth_url_of cid = Some url
        /\ snd (get_credentials (environ w) (stdin_lines w)) = inl (cid, sec)).
Proof.
  pose proof (get_credentials_events (environ w) (stdin_lines w)) as Hg.
  unfold prologue.
  destruct (get_credentials (environ w) (stdin_lines w)) as [evs1 [[cid sec]|o]];
    cbn [fst snd] in Hg |- *; step_M.
  2:{ left. do 2 eexists. split; [reflexivity|]. cbn [forallb]. rewrite Hg. reflexivity. }
  destruct cid as [|c cid]; step_M.
  { left. do 2 eexists. split; [reflexivity|]. cbn [forallb]. rewrite forallb_app, Hg. reflexivity. }
  destruct sec as [|d sec]; step_M.
  { left. do 2 eexists. split; [reflexivity|]. cbn [forallb]. rewrite forallb_app, Hg. reflexivity. }
  destruct (auth_url_of (c :: cid)) as [url|] eqn:Eu; step_M.
  2:{ left. do 2 eexists. split; [reflexivity|]. cbn [forallb]. rewrite forallb_app, Hg. reflexivity. }
  destruct (port_8080_free w); step_M.
  2:{ left. do 2 eexists. split; [reflexivity|]. cbn [forallb]. rewrite forallb_app, Hg. reflexivity. }
  right.
  exists ([Out rule; Out (lit "Google OAuth Refresh Token Generator");
           Out (lit "Scopes: Google Ads + Google Sheets"); Out rule; Out []] ++ evs1 ++
          [Out (lit "Opening browser for authorization...");
           Out (lit "If browser doesn't open, go to:" ++ nl ++ url ++ nl)]).
  do 3 eexists. split; [|repeat split; [| discriminate | discriminate | exact Eu]].
  - rewrite <- !app_assoc. reflexivity.
  - cbn [forallb app]. rewrite forallb_app, Hg. reflexivity.
Qed.

Lemma forallb_weaken {A} (f g : A -> bool) (l : list A) :
  (forall x, f x = true -> g x = true) -> forallb f l = true -> forallb g l = true.
Proof. intros H. induction l as [|x l IH]; cbn; [auto|]. rewrite !andb_true_iff. intuition. Qed.

Section Runs.
Variable fr : str -> str.
Variable fz : str -> bool.
Variable up : Z -> bool.


Lemma run_phases w :
  run fr fz up w =
  match prologue w with
  | (evs, inr o) => (evs, o)
  | (evs, inl (cid, sec)) =>
      match serve None (incoming w) with
      | (sevs, None) => (evs ++ sevs, Blocked)
      | (sevs, Some (code, _)) =>
          (evs ++ sevs ++ fst (after_callback fr fz up cid sec code (token_endpoint w)),
           match snd (after_callback fr fz up cid sec code (token_endpoint w)) with
           | inl _ => Exited 0
           | inr o => o
           end)
      end
  end.
Proof.
  unfold run, main, wait_for_callback.
  destruct (prologue w) as [evs [[cid sec]|o]]; cbv [bind]; [|reflexivity].
  destruct (serve None (incoming w)) as [sevs [[code rest]|]]; [|reflexivity].
  destruct (after_callback fr fz up cid sec code (token_endpoint w)) as [aevs [u|o]];
    cbn [fst snd]; rewrite app_assoc; reflexivity.
Qed.

End Runs.

(** ** Facts about the authorization URL *)

(** A Python [str] holds code points 0..0x10FFFF. *)
Definition valid_cp (c : Z) : bool := (0 <=? c) && (c <=? 1114111).

(** Deciding the integer tests of a goal by [lia]. *)
Ltac zbool :=
  repeat (cbv beta iota delta [andb orb negb];
    match goal with
    | |- context [?a <? ?b] =>
        first [rewrite (proj2 (Z.ltb_lt a b)) by lia | rewrite (proj2 (Z.ltb_ge a b)) by lia]
    | |- context [?a <=? ?b] =>
        first [rewrite (proj2 (Z.leb_le a b)) by lia | rewrite (proj2 (Z.leb_gt a b)) by lia]
    | |- context [?a =? ?b] =>
        first [rewrite (proj2 (Z.eqb_eq a b)) by lia | rewrite (proj2 (Z.eqb_neq a b)) by lia]
    end).

Lemma utf8_dec_2 b1 b2 rest :
  194 <= b1 <= 223 -> 128 <= b2 <= 191 ->
  utf8_dec ([b1; b2] ++ rest) = Some ((b1 - 192) * 64 + (b2 - 128)) :: utf8_dec rest.
Proof. intros. cbn [app utf8_dec]. unfold is_cont. zbool. reflexivity. Qed.

Lemma utf8_dec_3 b1 b2 b3 rest :
  224 <= b1 <= 239 -> 128 <= b2 <= 191 -> 128 <= b3 <= 191 ->
  (b1 = 224 -> 160 <= b2) -> (b1 = 237 -> b2 <= 159) ->
  utf8_dec ([b1; b2; b3] ++ rest)
  = Some (((b1 - 224) * 64 + (b2 - 128)) * 64 + (b3 - 128)) :: utf8_dec rest.
Proof.
  intros. cbn [app utf8_dec]. unfold second_ok, is_cont.
  destruct (Z.eqb_spec b1 224); [|destruct (Z.eqb_spec b1 237)]; zbool; reflexivity.
Qed.

Lemma utf8_dec_4 b1 b2 b3 b4 rest :
  240 <= b1 <= 244 -> 128 <= b2 <= 191 -> 128 <= b3 <= 191 -> 128 <= b4 <= 191 ->
  (b1 = 240 -> 144 <= b2) -> (b1 = 244 -> b2 <= 143) ->
  utf8_dec ([b1; b2; b3; b4] ++ rest)
  = Some ((((b1 - 240) * 64 + (b2 - 128)) * 64 + (b3 - 128)) * 64 + (b4 - 128)) :: utf8_dec rest.
Proof.
  intros. cbn [app utf8_dec]. unfold second_ok, is_cont.
  destruct (Z.eqb_spec b1 240); [|destruct (Z.eqb_spec b1 244)]; zbool; reflexivity.
Qed.

Lemma utf8_dec_char c b rest :
  valid_cp c = true -> utf8_encode_char c = Some b ->
  utf8_dec (b ++ rest) = Some c :: utf8_dec rest /\ Forall (fun x => 0 <= x < 256) b.
Proof.
  unfold valid_cp, utf8_encode_char, is_surrogate. intros Hv.
  apply andb_true_iff in Hv as [H0 H1]. apply Z.leb_le in H0. apply Z.leb_le in H1.
  assert (c < 128 \/ 128 <= c < 2048 \/ 2048 <= c < 55296 \/ 55296 <= c <= 57343
          \/ 57343 < c < 65536 \/ 65536 <= c) as Hr by lia.
  destruct Hr as [Hr|[Hr|[Hr|[Hr|[Hr|Hr]]]]]; zbool; intro He; try discriminate He;
    pose proof (f_equal (fun o => match o with Some x => x | None => [] end) He) as Hb;
    cbv beta iota in Hb; subst b.
  - cbn [app utf8_dec]. zbool. split; [reflexivity|repeat constructor; lia].
  - rewrite utf8_dec_2 by (Z.div_mod_to_equations; lia).
    split; [do 2 f_equal; Z.div_mod_to_equations; lia|repeat constructor; Z.div_mod_to_equations; lia].
  - rewrite utf8_dec_3 by (Z.div_mod_to_equations; lia).
    split; [do 2 f_equal; Z.div_mod_to_equations; lia|repeat constructor; Z.div_mod_to_equations; lia].
  - rewrite utf8_dec_3 by (Z.div_mod_to_equations; lia).
    split; [do 2 f_equal; Z.div_mod_to_equations; lia|repeat constructor; Z.div_mod_to_equations; lia].
  - rewrite utf8_dec_4 by (Z.div_mod_to_equations; lia).
    split; [do 2 f_equal; Z.div_mod_to_equations; lia|repeat constructor; Z.div_mod_to_equations; lia].
Qed.

Lemma utf8_encode_dec s bs :
  forallb valid_cp s = true -> utf8_encode s = Some bs ->
  utf8_dec bs = map Some s /\ Forall (fun x => 0 <= x < 256) bs.
Proof.
  revert bs. induction s as [|c s IH]; intros bs Hv He.
  - injection He as <-. split; [reflexivity|constructor].
  - cbn [forallb] in Hv. apply andb_true_iff in Hv as [Hc Hs].
    cbn [utf8_encode] in He.
    destruct (utf8_encode_char c) as [b|] eqn:Eb; [|discriminate He].
    destruct (utf8_encode s) as [bs'|]; [|discriminate He].
    pose proof (f_equal (fun o => match o with Some x => x | None => [] end) He) as Hb.
    cbv beta iota in Hb. subst bs.
    destruct (utf8_dec_char c b bs' Hc Eb) as [-> Hb].
    destruct (IH bs' Hs eq_refl) as [-> Hbs']. split; [reflexivity|apply Forall_app; auto].
Qed.

Lemma decode_replace_map s bs : utf8_dec bs = map Some s -> decode_replace bs = s.
Proof.
  unfold decode_replace. intros ->. rewrite map_map. apply map_id.
Qed.

Lemma hex_upper_cases d : 0 <= d < 16 ->
  always_safe (hex_upper d) = true /\ is_hex (hex_upper d) = true /\ hex_val (hex_upper d) = d
  /\ hex_upper d <> 37 /\ hex_upper d <> 43.
Proof.
  intro H.
  assert (d = 0 \/ d = 1 \/ d = 2 \/ d = 3 \/ d = 4 \/ d = 5 \/ d = 6 \/ d = 7 \/ d = 8
          \/ d = 9 \/ d = 10 \/ d = 11 \/ d = 12 \/ d = 13 \/ d = 14 \/ d = 15) as Hd by lia.
  repeat destruct Hd as [-> | Hd]; subst;
    (split; [reflexivity|split; [reflexivity|split; [reflexivity|split; discriminate]]]).
Qed.

(** The characters [quote_plus] produces. *)
Definition qchar (c : Z) : bool := always_safe c || (c =? 43) || (c =? 37).

Lemma always_safe_range c : always_safe c = true -> 45 <= c <= 126 /\ c <> 61.
Proof.
  unfold always_safe. intro H.
  repeat (apply orb_true_iff in H as [H|H]); repeat (apply andb_true_iff in H as [? H]);
    repeat match goal with Hx : (_ <=? _) = true |- _ => apply Z.leb_le in Hx end;
    repeat match goal with Hx : (_ =? _) = true |- _ => apply Z.eqb_eq in Hx end;
    try (apply Z.leb_le in H); lia.
Qed.

Lemma qchar_range c : qchar c = true -> 0 <= c < 128 /\ c <> 9 /\ c <> 10 /\ c <> 13
  /\ c <> 35 /\ c <> 38 /\ c <> 61.
Proof.
  unfold qchar. intro H. apply orb_true_iff in H as [H|H]; [apply orb_true_iff in H as [H|H]|].
  - apply always_safe_range in H. lia.
  - apply Z.eqb_eq in H. lia.
  - apply Z.eqb_eq in H. lia.
Qed.

Lemma quote_plus_byte_qchar b : 0 <= b < 256 -> forallb qchar (quote_plus_byte b) = true.
Proof.
  intro H. unfold quote_plus_byte.
  destruct (always_safe b) eqn:E; [cbn; unfold qchar; rewrite E; reflexivity|].
  destruct (b =? 32); [reflexivity|].
  destruct (hex_upper_cases (b / 16)) as [H1 _]; [Z.div_mod_to_equations; lia|].
  destruct (hex_upper_cases (b mod 16)) as [H2 _]; [Z.div_mod_to_equations; lia|].
  cbn [forallb]. unfold qchar at 2 3. rewrite H1, H2. reflexivity.
Qed.

Lemma pct_decode_other c t : c <> 37 -> pct_decode (c :: t) = c :: pct_decode t.
Proof. intro H. cbn [pct_decode]. rewrite (proj2 (Z.eqb_neq c 37) H). reflexivity. Qed.

Lemma pct_decode_hex h1 h2 r : is_hex h1 = true -> is_hex h2 = true ->
  pct_decode (37 :: h1 :: h2 :: r) = (hex_val h1 * 16 + hex_val h2) :: pct_decode r.
Proof. intros H1 H2. cbn [pct_decode Z.eqb Pos.eqb]. rewrite H1, H2. reflexivity. Qed.

Lemma pct_decode_quote_byte b rest : 0 <= b < 256 ->
  pct_decode (replace_char 43 32 (quote_plus_byte b) ++ rest) = b :: pct_decode rest.
Proof.
  intro H. unfold quote_plus_byte.
  destruct (always_safe b) eqn:E.
  - apply always_safe_range in E.
    unfold replace_char. cbn [map app]. rewrite (proj2 (Z.eqb_neq b 43)) by lia.
    apply pct_decode_other. lia.
  - destruct (Z.eqb_spec b 32) as [->|Hb]; [reflexivity|].
    destruct (hex_upper_cases (b / 16)) as (_ & Hx1 & Hv1 & _ & Hn1); [Z.div_mod_to_equations; lia|].
    destruct (hex_upper_cases (b mod 16)) as (_ & Hx2 & Hv2 & _ & Hn2); [Z.div_mod_to_equations; lia|].
    unfold replace_char. cbv beta iota delta [map app].
    rewrite (proj2 (Z.eqb_neq _ 43) Hn1), (proj2 (Z.eqb_neq _ 43) Hn2).
    change (37 =? 43) with false. cbv beta iota.
    rewrite pct_decode_hex by assumption. rewrite Hv1, Hv2. f_equal.
    Z.div_mod_to_equations; lia.
Qed.

Lemma replace_char_app a b x y :
  replace_char a b (x ++ y) = replace_char a b x ++ replace_char a b y.
Proof. apply map_app. Qed.

Lemma pct_decode_quote bs : Forall (fun x => 0 <= x < 256) bs ->
  pct_decode (replace_char 43 32 (flat_map quote_plus_byte bs)) = bs.
Proof.
  induction 1 as [|b bs Hb Hbs IH]; [reflexivity|].
  cbn [flat_map]. rewrite replace_char_app.
  rewrite pct_decode_quote_byte by exact Hb. f_equal. exact IH.
Qed.

Lemma replace_qchar_ascii q : forallb qchar q = true ->
  forallb (fun c => (0 <=? c) && (c <? 128)) (replace_char 43 32 q) = true.
Proof.
  induction q as [|c q IH]; [reflexivity|]. cbn [forallb]. intro H.
  apply andb_true_iff in H as [Hc Hq]. unfold replace_char in *. cbn [map forallb].
  rewrite IH by exact Hq. apply qchar_range in Hc.
  destruct (c =? 43); zbool; reflexivity.
Qed.

Lemma utf8_dec_ascii x : forallb (fun c => (0 <=? c) && (c <? 128)) x = true -> utf8_dec x = map Some x.
Proof.
  induction x as [|c x IH]; [reflexivity|]. cbn [forallb]. intro H.
  apply andb_true_iff in H as [Hc Hx]. apply andb_true_iff in Hc as [_ Hc].
  cbn [utf8_dec]. rewrite Hc, IH by exact Hx. reflexivity.
Qed.

Lemma pct_decode_no_pct x : existsb (Z.eqb 37) x = false -> pct_decode x = x.
Proof.
  induction x as [|c x IH]; [reflexivity|]. cbn [existsb]. intro H.
  apply orb_false_iff in H as [Hc Hx]. rewrite pct_decode_other, IH by (auto; apply Z.eqb_neq; rewrite Z.eqb_sym; exact Hc).
  reflexivity.
Qed.

Lemma unquote_go_ascii x : forall run,
  forallb (fun c => (0 <=? c) && (c <? 128)) x = true -> unquote_go run x = decode_run (run ++ x).
Proof.
  induction x as [|c x IH]; intros run H; cbn [unquote_go]; [rewrite app_nil_r; reflexivity|].
  cbn [forallb] in H. apply andb_true_iff in H as [Hc Hx]. apply andb_true_iff in Hc as [_ Hc].
  rewrite Hc, IH by exact Hx. rewrite <- app_assoc. reflexivity.
Qed.

Lemma decode_run_eq x : decode_run x = decode_replace (pct_decode x).
Proof. destruct x; reflexivity. Qed.

(** [quote_plus] is undone by [unquote_plus], and its output is made of
    letters, digits, [_.-~], ['+'] and ['%']. *)
Lemma quote_plus_roundtrip s q :
  forallb valid_cp s = true -> quote_plus s = Some q ->
  unquote_plus q = s /\ forallb qchar q = true.
Proof.
  unfold quote_plus. intros Hv Hq.
  destruct (utf8_encode s) as [bs|] eqn:Ebs; [|discriminate Hq].
  cbn [option_map] in Hq. injection Hq as <-.
  destruct (utf8_encode_dec s bs Hv Ebs) as [Hdec Hrange].
  assert (forallb qchar (flat_map quote_plus_byte bs) = true) as Hqc.
  { clear - Hrange. induction Hrange as [|b bs Hb _ IH]; [reflexivity|].
    cbn [flat_map]. rewrite forallb_app, quote_plus_byte_qchar, IH by exact Hb. reflexivity. }
  split; [|exact Hqc].
  pose proof (pct_decode_quote bs Hrange) as Hp.
  pose proof (replace_qchar_ascii _ Hqc) as Ha.
  unfold unquote_plus, unquote.
  destruct (existsb (Z.eqb 37) _) eqn:Ep.
  - rewrite unquote_go_ascii by exact Ha. cbn [app]. rewrite decode_run_eq, Hp.
    apply decode_replace_map. exact Hdec.
  - rewrite pct_decode_no_pct in Hp by exact Ep. rewrite Hp in Ha |- *.
    apply decode_replace_map in Hdec. rewrite <- Hdec.
    symmetry. apply decode_replace_map. apply utf8_dec_ascii. exact Ha.
Qed.

Definition avoids (sep : Z) (s : str) : bool := forallb (fun c => negb (c =? sep)) s.

Lemma split_on_avoid sep s : avoids sep s = true -> split_on sep s = [s].
Proof.
  induction s as [|c s IH]; [reflexivity|]. unfold avoids. cbn [forallb split_on]. intro H.
  apply andb_true_iff in H as [Hc Hs]. apply negb_true_iff in Hc. rewrite Hc, IH by exact Hs.
  reflexivity.
Qed.

Lemma split_on_ne sep s : split_on sep s <> [].
Proof.
  destruct s as [|c s]; cbn [split_on]; [discriminate|].
  destruct (c =? sep); [discriminate|]. destruct (split_on sep s); discriminate.
Qed.

Lemma split_on_app sep a b : avoids sep a = true ->
  split_on sep (a ++ sep :: b) = split_on sep a ++ split_on sep b.
Proof.
  induction a as [|c a IH]; intro H; cbn [app split_on].
  - rewrite Z.eqb_refl. reflexivity.
  - unfold avoids in H. cbn [forallb] in H. apply andb_true_iff in H as [Hc Ha].
    apply negb_true_iff in Hc. rewrite Hc, IH by exact Ha.
    pose proof (split_on_ne sep a) as Hne.
    destruct (split_on sep a); [congruence|reflexivity].
Qed.

Lemma split_first_app sep a b : avoids sep a = true ->
  split_first sep (a ++ sep :: b) = (a, Some b).
Proof.
  induction a as [|c a IH]; intro H; cbn [app split_first].
  - rewrite Z.eqb_refl. reflexivity.
  - unfold avoids in H. cbn [forallb] in H. apply andb_true_iff in H as [Hc Ha].
    apply negb_true_iff in Hc. rewrite Hc, IH by exact Ha. reflexivity.
Qed.

Lemma split_first_avoid sep a : avoids sep a = true -> split_first sep a = (a, None).
Proof.
  induction a as [|c a IH]; intro H; cbn [split_first]; [reflexivity|].
  unfold avoids in H. cbn [forallb] in H. apply andb_true_iff in H as [Hc Ha].
  apply negb_true_iff in Hc. rewrite Hc, IH by exact Ha. reflexivity.
Qed.

Lemma join_cons2 sep p p' ps : join sep (p :: p' :: ps) = p ++ sep ++ join sep (p' :: ps).
Proof. reflexivity. Qed.

Lemma split_on_join sep parts : parts <> [] -> Forall (fun p => avoids sep p = true) parts ->
  split_on sep (join [sep] parts) = parts.
Proof.
  induction parts as [|p ps IH]; intros Hne Hall; [congruence|].
  inversion Hall as [|? ? Hp Hps]; subst.
  destruct ps as [|p' ps].
  - apply split_on_avoid. exact Hp.
  - rewrite join_cons2. cbn [app]. rewrite split_on_app, split_on_avoid, IH by (auto; discriminate).
    reflexivity.
Qed.

Lemma forallb_join (f : Z -> bool) sep parts : forallb f sep = true ->
  Forall (fun p => forallb f p = true) parts -> forallb f (join sep parts) = true.
Proof.
  intros Hs. induction 1 as [|p ps Hp Hps IH]; [reflexivity|].
  destruct ps as [|p' ps]; [exact Hp|].
  rewrite join_cons2, !forallb_app, Hp, Hs. exact IH.
Qed.

(** A Python [str]: every code point in 0..0x10FFFF. *)
Definition valid_str (s : str) : bool := forallb valid_cp s.

Lemma qchar_avoids sep q : forallb qchar q = true ->
  (sep = 9 \/ sep = 10 \/ sep = 13 \/ sep = 35 \/ sep = 38 \/ sep = 61) -> avoids sep q = true.
Proof.
  intros H Hs. unfold avoids. revert H; apply forallb_weaken.
  intros c Hc. apply qchar_range in Hc. apply negb_true_iff, Z.eqb_neq. lia.
Qed.

Lemma parse_qsl_field_ne kb nv : nv <> [] -> parse_qsl_field kb nv =
  match split_first 61 nv with
  | (name, None) => if kb then [(unquote_plus name, [])] else []
  | (name, Some value) =>
      match value with
      | [] => if kb then [(unquote_plus name, [])] else []
      | _ => [(unquote_plus name, unquote_plus value)]
      end
  end.
Proof. destruct nv; [congruence|reflexivity]. Qed.

Lemma parse_qsl_field_pair kb k v qk qv :
  valid_str k = true -> valid_str v = true -> k <> [] -> (kb = false -> v <> []) ->
  quote_plus k = Some qk -> quote_plus v = Some qv ->
  parse_qsl_field kb (qk ++ 61 :: qv) = [(k, v)].
Proof.
  intros Hk Hv Hkne Hvne Eqk Eqv.
  destruct (quote_plus_roundtrip k qk Hk Eqk) as [Uk Ck].
  destruct (quote_plus_roundtrip v qv Hv Eqv) as [Uv Cv].
  assert (qk <> []) as Hqk by (intros ->; apply Hkne; rewrite <- Uk; reflexivity).
  rewrite parse_qsl_field_ne by (destruct qk; [congruence|discriminate]).
  rewrite split_first_app by (apply qchar_avoids; [exact Ck|lia]).
  destruct qv as [|c qv'].
  - assert (v = []) as -> by (rewrite <- Uv; reflexivity).
    destruct kb; [rewrite Uk; reflexivity|].
    exfalso. apply (Hvne eq_refl). reflexivity.
  - rewrite Uk, Uv. reflexivity.
Qed.

(** What [urlencode] needs of a pair for [parse_qsl] to give it back. *)
Definition encodable_pair (kb : bool) (kv : str * str) : Prop :=
  valid_str (fst kv) = true /\ valid_str (snd kv) = true /\ fst kv <> []
  /\ (kb = false -> snd kv <> []).

Definition urlchar (c : Z) : bool := qchar c || (c =? 61) || (c =? 38).

Lemma urlencode_pairs_parts kb kvs parts :
  urlencode_pairs kvs = Some parts -> Forall (encodable_pair kb) kvs ->
  flat_map (parse_qsl_field kb) parts = kvs /\
  Forall (fun p => p <> [] /\ avoids 38 p = true /\ forallb urlchar p = true) parts /\
  List.length parts = List.length kvs.
Proof.
  revert parts. induction kvs as [|[k v] kvs IH]; intros parts He Hg.
  - injection He as <-. split; [reflexivity|split; [constructor|reflexivity]].
  - cbn [urlencode_pairs] in He.
    destruct (quote_plus k) as [qk|] eqn:Ek; [|discriminate He].
    destruct (quote_plus v) as [qv|] eqn:Ev; [|discriminate He].
    destruct (urlencode_pairs kvs) as [rest|]; [|discriminate He].
    injection He as <-. inversion Hg as [|? ? (Hk & Hv & Hkne & Hvne) Hg']; subst.
    destruct (IH rest eq_refl Hg') as (Hf & Hp & Hl).
    cbn [fst snd] in *.
    destruct (quote_plus_roundtrip k qk Hk Ek) as [Uk Ck].
    destruct (quote_plus_roundtrip v qv Hv Ev) as [_ Cv].
    split; [|split].
    + change (flat_map ?f (?x :: ?l)) with (f x ++ flat_map f l).
      rewrite (parse_qsl_field_pair kb k v qk qv) by auto. rewrite Hf. reflexivity.
    + constructor; [|exact Hp]. split; [destruct qk; discriminate|]. split.
      * unfold avoids. rewrite !forallb_app.
        change (forallb ?f (?x :: ?l)) with (f x && forallb f l).
        fold (avoids 38 qk). fold (avoids 38 qv).
        rewrite !qchar_avoids by (first [assumption | lia]). reflexivity.
      * rewrite !forallb_app.
        change (forallb ?f (?x :: ?l)) with (f x && forallb f l).
        assert (forall q, forallb qchar q = true -> forallb urlchar q = true) as Hw
          by (intro q; apply forallb_weaken; intros c Hc; unfold urlchar; rewrite Hc; reflexivity).
        rewrite (Hw qk Ck), (Hw qv Cv). reflexivity.
    + cbn [List.length]. rewrite Hl. reflexivity.
Qed.

Lemma parse_qsl_join kb parts :
  Forall (fun p => p <> [] /\ avoids 38 p = true /\ forallb urlchar p = true) parts ->
  parse_qsl kb (join [38] parts) = flat_map (parse_qsl_field kb) parts.
Proof.
  intro H. destruct parts as [|p ps]; [reflexivity|].
  assert (join [38] (p :: ps) <> []) as Hne.
  { inversion H as [|? ? (Hp & _) _]; subst.
    destruct ps; [exact Hp|rewrite join_cons2; destruct p; [congruence|discriminate]]. }
  assert (parse_qsl kb (join [38] (p :: ps))
          = flat_map (parse_qsl_field kb) (split_on 38 (join [38] (p :: ps)))) as ->
    by (destruct (join [38] (p :: ps)); [congruence|reflexivity]).
  rewrite split_on_join; [reflexivity|discriminate|].
  revert H; apply Forall_impl; tauto.
Qed.

(** Characters that [urlsplit] neither removes nor treats as the start of
    a fragment. *)
Definition in_url (c : Z) : bool := negb ((c =? 9) || (c =? 13) || (c =? 10)) && negb (c =? 35).

Lemma remove_unsafe_id u : forallb in_url u = true -> remove_unsafe u = u.
Proof.
  unfold remove_unsafe. induction u as [|c u IH]; [reflexivity|].
  change (forallb ?f (?x :: ?l)) with (f x && forallb f l).
  change (filter ?f (?x :: ?l)) with (if f x then x :: filter f l else filter f l).
  intro H. apply andb_true_iff in H as [Hc Hu]. unfold in_url in Hc.
  apply andb_true_iff in Hc as [Hc _]. rewrite Hc, IH by exact Hu. reflexivity.
Qed.

Lemma urlsplit_query_simple base q :
  forallb in_url base = true -> avoids 63 base = true -> forallb in_url q = true ->
  urlsplit_query (base ++ 63 :: q) = q.
Proof.
  intros Hb Hb63 Hq. unfold urlsplit_query.
  assert (forallb in_url (base ++ 63 :: q) = true) as Hall.
  { rewrite forallb_app, Hb. change (forallb ?f (?x :: ?l)) with (f x && forallb f l).
    rewrite Hq. reflexivity. }
  rewrite remove_unsafe_id by exact Hall.
  rewrite (split_first_avoid 35).
  - change (fst (?a, ?b)) with a. rewrite split_first_app by exact Hb63. reflexivity.
  - unfold avoids. revert Hall. apply forallb_weaken. intros c Hc.
    unfold in_url in Hc. apply andb_true_iff in Hc as [_ Hc]. exact Hc.
Qed.

Lemma urlchar_in_url c : urlchar c = true -> in_url c = true.
Proof.
  unfold urlchar, in_url. intro H.
  apply orb_true_iff in H as [H|H]; [apply orb_true_iff in H as [H|H]|].
  - apply qchar_range in H. zbool. reflexivity.
  - apply Z.eqb_eq in H. subst. reflexivity.
  - apply Z.eqb_eq in H. subst. reflexivity.
Qed.

Lemma auth_params_encodable kb cid :
  valid_str cid = true -> (kb = false -> cid <> []) -> Forall (encodable_pair kb) (auth_params cid).
Proof.
  intros Hv Hne. unfold auth_params.
  repeat apply Forall_cons; try apply Forall_nil; unfold encodable_pair; cbn [fst snd];
    (split; [reflexivity|split; [try reflexivity; exact Hv|split; [discriminate|]]]);
    first [exact Hne | intros _; discriminate].
Qed.

(** ** Facts about the console, the listener and the token request *)

(** Events that only touch the terminal. *)
Definition is_console (e : event) : bool :=
  match e with Out _ | Prompt _ | Traceback => true | _ => false end.

Lemma credential_console found prompt stdin :
  forallb is_console (fst (credential found prompt stdin)) = true.
Proof.
  unfold credential, input, bind, emit, ret, raise.
  destruct (missing found); [destruct stdin|]; reflexivity.
Qed.

Lemma get_credentials_console env stdin :
  forallb is_console (fst (get_credentials env stdin)) = true.
Proof.
  unfold get_credentials.
  generalize (dict_get env (lit "GOOGLE_ADS_CLIENT_ID")) (dict_get env (lit "GOOGLE_ADS_CLIENT_SECRET"))
    (lit "Enter GOOGLE_ADS_CLIENT_ID: ") (lit "Enter GOOGLE_ADS_CLIENT_SECRET: ").
  intros f1 f2 p1 p2. unfold bind.
  pose proof (credential_console f1 p1 stdin) as H1.
  destruct (credential f1 p1 stdin) as [evs1 [[cid stdin1]|o]]; cbn [fst snd] in *; [|exact H1].
  pose proof (credential_console f2 p2 stdin1) as H2.
  destruct (credential f2 p2 stdin1) as [evs2 [[sec stdin2]|o]]; unfold ret; cbn [fst snd] in *;
    rewrite ?app_nil_r, forallb_app, H1, H2; reflexivity.
Qed.

Lemma get_credentials_fail env stdin evs o :
  get_credentials env stdin = (evs, inr o) -> o = Exited 1.
Proof.
  unfold get_credentials.
  generalize (dict_get env (lit "GOOGLE_ADS_CLIENT_ID")) (dict_get env (lit "GOOGLE_ADS_CLIENT_SECRET"))
    (lit "Enter GOOGLE_ADS_CLIENT_ID: ") (lit "Enter GOOGLE_ADS_CLIENT_SECRET: ").
  intros f1 f2 p1 p2. unfold bind, credential, input, bind, emit, ret, raise.
  destruct (missing f1); [destruct stdin as [|l1 stdin]|];
    (destruct (missing f2); [try destruct stdin as [|l2 stdin]|]);
    cbn [app]; intro H; injection H as _ H; congruence.
Qed.

Lemma serve_served a reqs : forallb is_served (fst (serve a reqs)) = true.
Proof.
  revert a. induction reqs as [|r rest IH]; intros [c|]; try reflexivity.
  cbn [serve]. destruct (handle None r) as [a rep]. specialize (IH a).
  destruct (serve a rest) as [evs res]. exact IH.
Qed.

Lemma no_post_filter l : forallb (fun e => negb (is_post e)) l = true -> filter is_post l = [].
Proof.
  induction l as [|e l IH]; [reflexivity|]. cbn [forallb filter]. intro H.
  apply andb_true_iff in H as [He Hl]. apply negb_true_iff in He. rewrite He. exact (IH Hl).
Qed.

Section Exchange.
Variable fr : str -> str.
Variable fz : str -> bool.
Variable up : Z -> bool.

(** A run that reaches the token endpoint went through the whole
    listener phase; the events before [after_callback] hold no request
    to the endpoint. *)
Lemma run_post w :
  (exists p, In p (fst (run fr fz up w)) /\ is_post p = true) ->
  exists before cid sec code,
    run fr fz up w =
      (before ++ fst (after_callback fr fz up cid sec code (token_endpoint w)),
       match snd (after_callback fr fz up cid sec code (token_endpoint w)) with
       | inl _ => Exited 0
       | inr o => o
       end)
    /\ forallb (fun e => negb (is_post e)) before = true.
Proof.
  intros (p & Hp & Hpost). rewrite run_phases in Hp |- *.
  destruct (prologue_cases w) as [(evs & o & He & Hl)|(evs & cid & sec & url & He & Hl & _)];
    rewrite He in Hp |- *.
  - exfalso. cbn [fst] in Hp. apply forallb_forall with (x := p) in Hl; [|exact Hp].
    unfold local_event in Hl. rewrite Hpost, orb_true_r in Hl. discriminate.
  - pose proof (serve_served None (incoming w)) as Hs.
    destruct (serve None (incoming w)) as [sevs [[code rest]|]].
    + exists ((evs ++ [Listen; Browser url; Out (lit "Waiting for authorization...")]) ++ sevs), cid, sec, code.
      split; [rewrite <- !app_assoc; reflexivity|].
      rewrite !forallb_app. cbn [forallb fst] in Hs |- *.
      assert (forall l, forallb local_event l = true -> forallb (fun e => negb (is_post e)) l = true) as Hw
        by (intro l; apply forallb_weaken; intros [] Hx; cbn in Hx |- *; congruence).
      assert (forall l, forallb is_served l = true -> forallb (fun e => negb (is_post e)) l = true) as Hw'
        by (intro l; apply forallb_weaken; intros [] Hx; cbn in Hx |- *; congruence).
      rewrite Hw, Hw' by assumption. reflexivity.
    + exfalso. cbn [fst] in Hp, Hs. apply in_app_or in Hp as [Hp|Hp].
      * apply in_app_or in Hp as [Hp|Hp].
        -- apply forallb_forall with (x := p) in Hl; [|exact Hp].
           unfold local_event in Hl. rewrite Hpost, orb_true_r in Hl. discriminate.
        -- destruct Hp as [<-|[<-|[<-|[]]]]; discriminate.
      * apply forallb_forall with (x := p) in Hs; [|exact Hp]. destruct p; discriminate.
Qed.

End Exchange.

(** Rewriting the monad inside a hypothesis. *)
Ltac step_M_in H := cbv beta iota zeta delta [bind print emit ret sys_exit raise or_raise] in H;
  cbn [app] in H.

Lemma no_post_in l p : forallb (fun e => negb (is_post e)) l = true -> In p l -> is_post p = false.
Proof.
  intros H Hp. apply forallb_forall with (x := p) in H; [|exact Hp].
  apply negb_true_iff in H. exact H.
Qed.

(** ** Example runs *)

(** The examples involve no float and no non-ASCII text, so any choice
    of the runtime parameters gives the same runs; these are fixed. *)
Definition ex_float_repr : str -> str := fun x => x.
Definition ex_float_is_zero : str -> bool := fun _ => false.
Definition ex_printable : Z -> bool := fun _ => true.

Definition run_ex (w : world) : list event * outcome :=
  run ex_float_repr ex_float_is_zero ex_printable w.

(** [a] is a prefix of [b]; [a] occurs in [b]. *)
Fixpoint prefixb (a b : str) : bool :=
  match a, b with
  | [], _ => true
  | x :: a', y :: b' => (x =? y) && prefixb a' b'
  | _ :: _, [] => false
  end.


Definition GET (p : str) : request := {| method := lit "GET"; path := p |}.

(** A JSON string literal. *)
Definition jstr (s : string) : str := dq ++ lit s ++ dq.

Definition ex_env : dict str :=
  [(lit "GOOGLE_ADS_CLIENT_ID", lit "123-abc.apps.googleusercontent.com");
   (lit "GOOGLE_ADS_CLIENT_SECRET", lit "s3cret")].

(** [{"refresh_token": "rtk_1"}] *)
Definition body_rtk : list Z := lit "{" ++ jstr "refresh_token" ++ lit ": " ++ jstr "rtk_1" ++ lit "}".


(** [{"error": "invalid_grant"}] *)
Definition body_invalid_grant : list Z := lit "{" ++ jstr "error" ++ lit ": " ++ jstr "invalid_grant" ++ lit "}".

Definition mk_world (env : dict str) (stdin : list str) (reqs : list request) (answer : token_reply) : world :=
  {| environ := env; stdin_lines := stdin; port_8080_free := true;
     incoming := reqs; token_endpoint := answer |}.

(** The user approves at once. *)
Definition w_ok : world := mk_world ex_env [] [GET (lit "/?code=4/0AbCd")] (TokOK body_rtk).


(** The user denies and nothing else arrives. *)
Definition w_denied : world :=
  mk_world ex_env [] [GET (lit "/?error=access_denied")] (TokOK body_rtk).

(** [GOOGLE_ADS_CLIENT_ID] is set to the empty string. *)
Definition w_empty_id : world :=
  mk_world [(lit "GOOGLE_ADS_CLIENT_ID", []); (lit "GOOGLE_ADS_CLIENT_SECRET", lit "s3cret")]
    [lit "  123-abc.apps.googleusercontent.com "] [GET (lit "/?code=4/0AbCd")] (TokOK body_rtk).

(** The token endpoint answers 400 with a JSON error. *)
Definition w_invalid_grant : world :=
  mk_world ex_env [] [GET (lit "/?code=4/0AbCd")] (TokHTTPError 400 body_invalid_grant).

(** The 502 body: two bytes that are not UTF-8, then [<html>]. *)
Definition body_not_utf8 : list Z := [255; 254; 60; 104; 116; 109; 108; 62].

(** The token endpoint answers 502 with a body that is not UTF-8. *)
Definition w_bad_gateway : world :=
  mk_world ex_env [] [GET (lit "/?code=4/0AbCd")] (TokHTTPError 502 body_not_utf8).




(** ** Facts for the further properties *)

(** The first five lines [main] prints. *)
Definition banner : list event :=
  [Out rule; Out (lit "Google OAuth Refresh Token Generator");
   Out (lit "Scopes: Google Ads + Google Sheets"); Out rule; Out []].

(** The report [main] prints after a refresh token [tok] was received. *)
Definition success_report (tok : str) : list event :=
  [Out []; Out rule; Out (lit "SUCCESS! Here's your new refresh token:"); Out rule; Out [];
   Out tok; Out []; Out rule; Out (lit "Update your .env file:");
   Out (lit "GOOGLE_ADS_REFRESH_TOKEN=" ++ tok); Out rule].

(** The link that [main] prints for the user to open. *)
Definition open_hint (url : str) : event :=
  Out (lit "If browser doesn't open, go to:" ++ nl ++ url ++ nl).

Lemma prologue_spec w :
  match prologue w with
  | (evs, inr o) => o = Exited 1 /\ forallb is_console evs = true /\ exists rest, evs = banner ++ rest
  | (evs, inl (cid, sec)) =>
      exists evs1 url,
        get_credentials (environ w) (stdin_lines w) = (evs1, inl (cid, sec))
        /\ cid <> [] /\ sec <> [] /\ auth_url_of cid = Some url /\ port_8080_free w = true
        /\ evs = banner ++ evs1 ++ [Out (lit "Opening browser for authorization..."); open_hint url;
                                    Listen; Browser url; Out (lit "Waiting for authorization...")]
  end.
Proof.
  pose proof (get_credentials_console (environ w) (stdin_lines w)) as Hc.
  pose proof (get_credentials_fail (environ w) (stdin_lines w)) as Hf.
  unfold prologue.
  destruct (get_credentials (environ w) (stdin_lines w)) as [evs1 [[cid sec]|o]] eqn:Eg;
    cbn [fst] in Hc; step_M.
  2:{ split; [exact (Hf _ _ eq_refl)|]. split; [cbn [forallb is_console andb]; exact Hc|].
      exists evs1. reflexivity. }
  destruct cid as [|c cid]; step_M.
  { split; [reflexivity|]. split; [|exists (evs1 ++ [Out (lit "Error: Missing client ID or secret")]); reflexivity].
    cbn [forallb is_console andb]. rewrite forallb_app, Hc. reflexivity. }
  destruct sec as [|d sec]; step_M.
  { split; [reflexivity|]. split; [|exists (evs1 ++ [Out (lit "Error: Missing client ID or secret")]); reflexivity].
    cbn [forallb is_console andb]. rewrite forallb_app, Hc. reflexivity. }
  destruct (auth_url_of (c :: cid)) as [url|] eqn:Eu; step_M.
  2:{ split; [reflexivity|]. split; [|exists (evs1 ++ [Traceback]); reflexivity].
      cbn [forallb is_console andb]. rewrite forallb_app, Hc. reflexivity. }
  destruct (port_8080_free w) eqn:Ep; step_M.
  2:{ split; [reflexivity|]. split.
      - cbn [forallb is_console andb]. rewrite forallb_app, Hc. reflexivity.
      - eexists. cbn [app]. rewrite <- ?app_assoc. reflexivity. }
  exists evs1, url. repeat split; try discriminate; try assumption.
Qed.

Section Phases.
Variable fr : str -> str.
Variable fz : str -> bool.
Variable up : Z -> bool.

Lemma token_exchanger_spec cid sec code ans :
  match token_exchanger fr fz up cid sec code ans with
  | (evs, inl v) =>
      exists data body text d,
        urlencode (token_params cid sec code) = Some data /\ evs = [Post TOKEN_URI data]
        /\ truthy fz v = true /\ ans = TokOK body /\ decode_strict body = Some text
        /\ json_loads text = Some (PDict d) /\ dict_get d (lit "refresh_token") = Some v
  | (evs, inr o) =>
      o = Exited 1 /\
      ((urlencode (token_params cid sec code) = None /\ evs = [Traceback])
       \/ exists data rest, urlencode (token_params cid sec code) = Some data
                           /\ evs = Post TOKEN_URI data :: rest /\ forallb is_console rest = true)
  end.
Proof.
  unfold token_exchanger.
  destruct (urlencode (token_params cid sec code)) as [data|]; step_M;
    [|split; [reflexivity|left; split; reflexivity]].
  destruct ans as [body|st body|]; step_M.
  - destruct (decode_strict body) as [text|] eqn:Ed; step_M;
      [|split; [reflexivity|right; do 2 eexists; repeat split]].
    destruct (json_loads text) as [tokens|] eqn:Ej; step_M;
      [|split; [reflexivity|right; do 2 eexists; repeat split]].
    destruct tokens as [| | | | | |d]; step_M;
      try (split; [reflexivity|right; do 2 eexists; repeat split]; fail).
    destruct (dict_get d (lit "refresh_token")) as [v|] eqn:Er.
    + destruct (truthy fz v) eqn:Et; step_M.
      * exists data, body, text, d. repeat split; assumption.
      * split; [reflexivity|right; do 2 eexists; repeat split].
    + cbv beta iota delta [truthy negb]. step_M.
      split; [reflexivity|right; do 2 eexists; repeat split].
  - destruct (decode_strict body) as [text|]; step_M;
      (split; [reflexivity|right; do 2 eexists; repeat split]).
  - split; [reflexivity|right; do 2 eexists; repeat split].
Qed.

Lemma after_callback_spec cid sec code ans :
  match after_callback fr fz up cid sec code ans with
  | (evs, inl _) =>
      exists v data body text d,
        urlencode (token_params cid sec code) = Some data /\ truthy fz v = true
        /\ ans = TokOK body /\ decode_strict body = Some text
        /\ json_loads text = Some (PDict d) /\ dict_get d (lit "refresh_token") = Some v
        /\ evs = [ServerClose; Out (nl ++ lit "Exchanging code for tokens..."); Post TOKEN_URI data]
                 ++ success_report (py_str fr up v)
  | (evs, inr o) =>
      o = Exited 1 /\
      exists rest, evs = [ServerClose; Out (nl ++ lit "Exchanging code for tokens...")] ++ rest
        /\ forallb (fun e => is_console e || is_post e) rest = true
        /\ (List.length (filter is_post rest) <= 1)%nat
        /\ forall u data, In (Post u data) rest ->
             u = TOKEN_URI /\ urlencode (token_params cid sec code) = Some data
  end.
Proof.
  pose proof (token_exchanger_spec cid sec code ans) as H.
  unfold after_callback.
  destruct (token_exchanger fr fz up cid sec code ans) as [evs [v|o]]; step_M.
  - destruct H as (data & body & text & d & Hd & -> & Ht & Ha & Hdec & Hj & Hr).
    exists v, data, body, text, d. repeat split; assumption.
  - destruct H as [-> [[Hd ->]|(data & rest & Hd & -> & Hr)]].
    + split; [reflexivity|]. exists [Traceback].
      split; [reflexivity|]. split; [reflexivity|]. split; [cbn; lia|].
      intros u d [Hx|[]]. discriminate.
    + split; [reflexivity|]. exists (Post TOKEN_URI data :: rest). split; [reflexivity|].
      assert (forallb (fun e => negb (is_post e)) rest = true) as Hn
        by (revert Hr; apply forallb_weaken; intros [] Hx; cbn in Hx |- *; congruence).
      split; [|split].
      * cbn [forallb]. revert Hr. apply forallb_weaken. intros e He. rewrite He. reflexivity.
      * cbn [filter is_post]. rewrite no_post_filter by exact Hn. cbn. lia.
      * intros u d [Hx|Hx].
        -- injection Hx as <- <-. split; [reflexivity|exact Hd].
        -- pose proof (no_post_in _ _ Hn Hx) as Hp. cbn in Hp. discriminate Hp.
Qed.

End Phases.


Lemma not_in_forallb {A} (f : A -> bool) l x : forallb f l = true -> f x = false -> ~ In x l.
Proof.
  intros H Hx Hin. apply forallb_forall with (x := x) in H; [congruence|exact Hin].
Qed.

Lemma filter_post_report t : filter is_post (success_report t) = [].
Proof. reflexivity. Qed.

Lemma forallb_report (f : event -> bool) t : (forall s, f (Out s) = true) -> forallb f (success_report t) = true.
Proof. intro H. unfold success_report. cbn [forallb]. rewrite !H. reflexivity. Qed.

Section Phases2.
Variable fr : str -> str.
Variable fz : str -> bool.
Variable up : Z -> bool.

Lemma after_callback_events cid sec code ans :
  forallb (fun e => is_console e || is_post e || is_close e)
    (fst (after_callback fr fz up cid sec code ans)) = true.
Proof.
  pose proof (after_callback_spec fr fz up cid sec code ans) as H.
  destruct (after_callback fr fz up cid sec code ans) as [evs [u|o]]; cbn [fst].
  - destruct H as (v & data & body & text & d & _ & _ & _ & _ & _ & _ & ->).
    rewrite forallb_app. rewrite forallb_report by reflexivity. reflexivity.
  - destruct H as (_ & rest & -> & Hr & _). cbn [app forallb]. revert Hr.
    apply forallb_weaken. intros e He. apply orb_true_iff in He as [He|He]; rewrite He;
      [reflexivity|rewrite orb_true_r; reflexivity].
Qed.


End Phases2.

(** A member of a list all of whose elements pass [f], while it fails [f]. *)
Ltac no_in H Hf :=
  exfalso; apply (not_in_forallb _ _ _ Hf) in H; [exact H|reflexivity].

(** Text that [str.encode('utf-8')] accepts: code points, no lone surrogate. *)
Definition encodable (s : str) : bool := forallb valid_cp s && negb (existsb is_surrogate s).

Lemma utf8_encode_char_some c : is_surrogate c = false -> exists b, utf8_encode_char c = Some b.
Proof.
  unfold utf8_encode_char. intro H.
  destruct (c <? 128); [eexists; reflexivity|]. destruct (c <? 2048); [eexists; reflexivity|].
  rewrite H. destruct (c <? 65536); eexists; reflexivity.
Qed.

Lemma utf8_encode_some s : existsb is_surrogate s = false -> exists bs, utf8_encode s = Some bs.
Proof.
  induction s as [|c s IH]; intro H; [eexists; reflexivity|].
  cbn [existsb] in H. apply orb_false_iff in H as [Hc Hs].
  destruct (utf8_encode_char_some c Hc) as [b Eb]. destruct (IH Hs) as [bs Ebs].
  exists (b ++ bs). cbn [utf8_encode]. rewrite Eb, Ebs. reflexivity.
Qed.

Lemma utf8_encode_none s : existsb is_surrogate s = true -> utf8_encode s = None.
Proof.
  induction s as [|c s IH]; intro H; [discriminate H|].
  cbn [existsb] in H. cbn [utf8_encode].
  apply orb_true_iff in H as [Hc|Hs].
  - assert (utf8_encode_char c = None) as ->; [|reflexivity].
    unfold utf8_encode_char. pose proof Hc as Hc'. unfold is_surrogate in Hc'.
    apply andb_true_iff in Hc' as [H1 H2]. apply Z.leb_le in H1. apply Z.leb_le in H2.
    rewrite (proj2 (Z.ltb_ge c 128)) by lia. rewrite (proj2 (Z.ltb_ge c 2048)) by lia.
    rewrite Hc. reflexivity.
  - rewrite (IH Hs). destruct (utf8_encode_char c); reflexivity.
Qed.

Lemma all_some_map s : all_some (map Some s) = Some s.
Proof. induction s as [|c s IH]; [reflexivity|]. cbn. rewrite IH. reflexivity. Qed.

Lemma quote_plus_some s : existsb is_surrogate s = false -> exists q, quote_plus s = Some q.
Proof.
  intro H. destruct (utf8_encode_some s H) as [bs E]. unfold quote_plus. rewrite E.
  eexists. reflexivity.
Qed.

Lemma urlencode_pairs_some kvs :
  Forall (fun kv => existsb is_surrogate (fst kv) = false /\ existsb is_surrogate (snd kv) = false) kvs ->
  exists parts, urlencode_pairs kvs = Some parts.
Proof.
  induction 1 as [|[k v] kvs [Hk Hv] _ IH]; [eexists; reflexivity|].
  destruct (quote_plus_some k Hk) as [qk Ek]. destruct (quote_plus_some v Hv) as [qv Ev].
  destruct IH as [parts Ep]. cbn [urlencode_pairs]. rewrite Ek, Ev, Ep. eexists. reflexivity.
Qed.

Lemma flat_map_single (f : Z -> list Z) s : (forall c, In c s -> f c = [c]) -> flat_map f s = s.
Proof.
  induction s as [|c s IH]; intro H; [reflexivity|]. cbn [flat_map].
  rewrite (H c (or_introl eq_refl)), IH; [reflexivity|]. intros x Hx. apply H. right. exact Hx.
Qed.

Lemma lstrip_spec s :
  exists pre, s = pre ++ lstrip s /\ forallb py_isspace pre = true
              /\ (forall c, hd_error (lstrip s) = Some c -> py_isspace c = false).
Proof.
  induction s as [|c s IH].
  - exists []. split; [reflexivity|split; [reflexivity|intros c H; discriminate H]].
  - cbn [lstrip]. destruct (py_isspace c) eqn:E.
    + destruct IH as (pre & Hs & Hp & Hh). exists (c :: pre).
      split; [cbn [app]; rewrite <- Hs; reflexivity|].
      split; [cbn [forallb]; rewrite E, Hp; reflexivity|exact Hh].
    + exists []. split; [reflexivity|split; [reflexivity|]].
      intros c' H. injection H as <-. exact E.
Qed.

Lemma lstrip_id t : (forall c, hd_error t = Some c -> py_isspace c = false) -> lstrip t = t.
Proof. destruct t as [|c t]; cbn; [reflexivity|]. intro H. rewrite (H c eq_refl). reflexivity. Qed.

Lemma forallb_rev {A} (f : A -> bool) l : forallb f (rev l) = forallb f l.
Proof.
  induction l as [|x l IH]; [reflexivity|]. cbn [rev]. rewrite forallb_app, IH. cbn [forallb].
  rewrite andb_true_r, andb_comm. reflexivity.
Qed.

(** Another program already listens on port 8080. *)
Definition w_port_busy : world :=
  {| environ := ex_env; stdin_lines := []; port_8080_free := false;
     incoming := [GET (lit "/?code=4/0AbCd")]; token_endpoint := TokOK body_rtk |}.



(** The token request of [w_ok] and the authorization URL for the client
    id of [ex_env]. *)
Definition ex_token_data : str :=
  lit "client_id=123-abc.apps.googleusercontent.com&client_secret=s3cret&code=4%2F0AbCd&grant_type=authorization_code&redirect_uri=http%3A%2F%2Flocalhost%3A8080".

Definition ex_auth_url : str :=
  lit "https://accounts.google.com/o/oauth2/auth?client_id=123-abc.apps.googleusercontent.com&redirect_uri=http%3A%2F%2Flocalhost%3A8080&response_type=code&scope=https%3A%2F%2Fwww.googleapis.com%2Fauth%2Fadwords+https%3A%2F%2Fwww.googleapis.com%2Fauth%2Fspreadsheets&access_type=offline&prompt=consent".

(* ================================================================== *)
(** * The properties of the specification *)

(** ** The callback handler *)

(** C4 (amended): a GET request whose query has a [code] parameter with a
    non-empty value is answered with status 200 and the success page, and
    [auth_code] is set to the first non-empty value of [code], provided
    [urlparse] accepts the path; when it raises [ValueError], the handler
    raises too: no reply, and [auth_code] is left as it was. *)
Theorem do_GET_code_recorded (a : option str) (p c : str) :
  In c (param_values (lit "code") (urlsplit_query p)) -> c <> [] ->
  exists code, first_nonblank (lit "code") (urlsplit_query p) = Some code /\
    do_GET a p = if urlsplit_ok p then (Some code, Response 200 success_page)
                 else (a, HandlerException).
Proof.
  intros Hin Hc. destruct (first_nonblank_some _ _ _ Hin Hc) as [v [Hv _]].
  exists v. split; [exact Hv|]. rewrite do_GET_spec, Hv. reflexivity.
Qed.

Lemma do_GET_code_recorded_witness :
  exists code, first_nonblank (lit "code") (urlsplit_query (lit "/?code=ABC123")) = Some code /\
    do_GET None (lit "/?code=ABC123")
    = if urlsplit_ok (lit "/?code=ABC123") then (Some code, Response 200 success_page)
      else (None, HandlerException).
Proof.
  apply (do_GET_code_recorded None (lit "/?code=ABC123") (lit "ABC123")).
  - vm_compute. left. reflexivity.
  - discriminate.
Defined.

(** C4 (counterexample): the request [/?code=] has a [code] parameter, but
    its value is blank, [parse_qs] drops it, and the handler answers 400
    with the message ["Unknown error"] and records nothing.  The
    absolute-form target [http://[x/?code=A] has the code [A], but
    [urlparse] raises on its network location [[x]: the handler sends no
    reply and records nothing. *)
Lemma do_GET_code_not_recorded :
  (In [] (param_values (lit "code") (urlsplit_query (lit "/?code="))) /\
   do_GET None (lit "/?code=") = (None, Response 400 (error_page (lit "Unknown error"))))
  /\ (In (lit "A") (param_values (lit "code") (urlsplit_query (lit "http://[x/?code=A"))) /\
      urlsplit_ok (lit "http://[x/?code=A") = false /\
      handle None (GET (lit "http://[x/?code=A")) = (None, HandlerException)).
Proof. vm_compute. split; split; try split; try left; reflexivity. Qed.

(** C5 (amended): a GET request without a [code] parameter of non-empty
    value is answered with status 400 and the error page, which embeds
    verbatim the message: the first non-empty value of [error], or exactly
    ["Unknown error"] when there is none, in particular when [error] is
    absent; this holds when [urlparse] accepts the path, otherwise the
    handler raises and sends no reply.  [auth_code] is left as it was. *)
Theorem do_GET_error_page (a : option str) (p : str) :
  (forall v, In v (param_values (lit "code") (urlsplit_query p)) -> v = []) ->
  exists error,
    do_GET a p = (if urlsplit_ok p then (a, Response 400 (error_page error))
                  else (a, HandlerException)) /\
    (exists pre post, error_page error = pre ++ error ++ post) /\
    error = match first_nonblank (lit "error") (urlsplit_query p) with
            | Some e => e
            | None => lit "Unknown error"
            end /\
    (param_values (lit "error") (urlsplit_query p) = [] -> error = lit "Unknown error").
Proof.
  intro Hcode.
  rewrite do_GET_spec, (first_nonblank_none_blank _ _ Hcode).
  eexists. split; [reflexivity|]. split; [|split; [reflexivity|]].
  - exists (nl ++ lit "                <html><body style=" ++ dq
            ++ lit "font-family: sans-serif; padding: 40px; text-align: center;" ++ dq
            ++ lit ">" ++ nl ++ lit "                <h1>Authorization failed</h1>" ++ nl
            ++ lit "                <p>Error: "),
           (lit "</p>" ++ nl ++ lit "                </body></html>" ++ nl ++ lit "            ").
    unfold error_page. rewrite <- !app_assoc. reflexivity.
  - intro Habs. rewrite (first_nonblank_none_absent _ _ Habs). reflexivity.
Qed.

Lemma do_GET_error_page_witness :
  exists error,
    do_GET None (lit "/?error=access_denied")
    = (if urlsplit_ok (lit "/?error=access_denied") then (None, Response 400 (error_page error))
       else (None, HandlerException)) /\
    (exists pre post, error_page error = pre ++ error ++ post) /\
    error = match first_nonblank (lit "error") (urlsplit_query (lit "/?error=access_denied")) with
            | Some e => e
            | None => lit "Unknown error"
            end /\
    (param_values (lit "error") (urlsplit_query (lit "/?error=access_denied")) = [] ->
     error = lit "Unknown error").
Proof.
  apply (do_GET_error_page None (lit "/?error=access_denied")).
  intros v Hv. vm_compute in Hv. destruct Hv.
Defined.

(** C5 (counterexample): the absolute-form target [http://[x/?error=e] has
    no [code] parameter, yet no 400 page is sent: [urlparse] raises on the
    network location [[x] and the handler raises. *)
Lemma do_GET_bad_netloc_no_reply :
  param_values (lit "code") (urlsplit_query (lit "http://[x/?error=e")) = [] /\
  urlsplit_ok (lit "http://[x/?error=e") = false /\
  handle None (GET (lit "http://[x/?error=e")) = (None, HandlerException).
Proof. vm_compute. repeat split. Qed.

(** C10 (amended): when the query has both a [code] parameter with a
    non-empty value and an [error] parameter, the code branch is taken:
    status 200, [auth_code] set to the first non-empty [code] value, the
    [error] parameter ignored; this holds when [urlparse] accepts the path,
    otherwise the handler raises, sends no reply and records nothing. *)
Theorem do_GET_code_over_error (a : option str) (p c e : str) :
  In c (param_values (lit "code") (urlsplit_query p)) -> c <> [] ->
  In e (param_values (lit "error") (urlsplit_query p)) ->
  exists code, first_nonblank (lit "code") (urlsplit_query p) = Some code /\
    do_GET a p = if urlsplit_ok p then (Some code, Response 200 success_page)
                 else (a, HandlerException).
Proof.
  intros Hin Hc _. destruct (first_nonblank_some _ _ _ Hin Hc) as [v [Hv _]].
  exists v. split; [exact Hv|]. rewrite do_GET_spec, Hv. reflexivity.
Qed.

Lemma do_GET_code_over_error_witness :
  exists code,
    first_nonblank (lit "code") (urlsplit_query (lit "/?error=x&code=ABC")) = Some code /\
    do_GET None (lit "/?error=x&code=ABC")
    = if urlsplit_ok (lit "/?error=x&code=ABC") then (Some code, Response 200 success_page)
      else (None, HandlerException).
Proof.
  apply (do_GET_code_over_error None (lit "/?error=x&code=ABC") (lit "ABC") (lit "x")).
  - vm_compute. left. reflexivity.
  - discriminate.
  - vm_compute. left. reflexivity.
Defined.

(** C10 (counterexample): [/?code=&error=access_denied] has both
    parameters, but the blank [code] is dropped and the error branch
    answers 400.  [http://[x/?error=e&code=A] has both parameters with
    non-empty values, but [urlparse] raises and nothing is recorded. *)
Lemma do_GET_code_and_error_not_recorded :
  (In [] (param_values (lit "code") (urlsplit_query (lit "/?code=&error=access_denied"))) /\
   do_GET None (lit "/?code=&error=access_denied")
   = (None, Response 400 (error_page (lit "access_denied"))))
  /\ (In (lit "A") (param_values (lit "code") (urlsplit_query (lit "http://[x/?error=e&code=A"))) /\
      In (lit "e") (param_values (lit "error") (urlsplit_query (lit "http://[x/?error=e&code=A"))) /\
      urlsplit_ok (lit "http://[x/?error=e&code=A") = false /\
      handle None (GET (lit "http://[x/?error=e&code=A")) = (None, HandlerException)).
Proof. vm_compute. split; split; try split; try split; try left; try (right; left); reflexivity. Qed.

(** C3: for a client id whose characters are valid code points, the
    authorization URL is built, and decoding its query gives back exactly the
    parameters client_id, redirect_uri, response_type=code, the scopes joined
    by one space, access_type=offline and prompt=consent, in this order; for a
    non-empty client id, parse_qs maps each of the six names to that value. *)
Theorem auth_url_decodes cid url :
  valid_str cid = true -> auth_url_of cid = Some url ->
  parse_qsl true (urlsplit_query url) = auth_params cid /\
  (cid <> [] -> parse_qs (urlsplit_query url) =
     [(lit "client_id", [cid]); (lit "redirect_uri", [REDIRECT_URI]);
      (lit "response_type", [lit "code"]); (lit "scope", [join (lit " ") SCOPES]);
      (lit "access_type", [lit "offline"]); (lit "prompt", [lit "consent"])]).
Proof.
  intros Hv. unfold auth_url_of, urlencode.
  destruct (urlencode_pairs (auth_params cid)) as [parts|] eqn:Ep; [|discriminate].
  intro Hu. cbn [option_map] in Hu.
  pose proof (f_equal (fun o => match o with Some x => x | None => [] end) Hu) as Hurl.
  cbv beta iota in Hurl. subst url. clear Hu.
  destruct (urlencode_pairs_parts true _ _ Ep (auth_params_encodable true cid Hv ltac:(discriminate)))
    as (Hf & Hp & _).
  assert (urlsplit_query (AUTH_URI ++ [63] ++ join [38] parts) = join [38] parts) as Hq.
  { apply urlsplit_query_simple; [reflexivity|reflexivity|].
    apply forallb_join; [reflexivity|]. revert Hp; apply Forall_impl.
    intros p (_ & _ & Hu). revert Hu. apply forallb_weaken. exact urlchar_in_url. }
  rewrite Hq. split.
  - rewrite parse_qsl_join by exact Hp. exact Hf.
  - intro Hne.
    destruct (urlencode_pairs_parts false _ _ Ep (auth_params_encodable false cid Hv (fun _ => Hne)))
      as (Hf' & _).
    unfold parse_qs. rewrite parse_qsl_join, Hf' by exact Hp. reflexivity.
Qed.

Lemma auth_url_decodes_witness :
  exists url, auth_url_of (lit "123-abc.apps.googleusercontent.com") = Some url /\
  (parse_qsl true (urlsplit_query url) = auth_params (lit "123-abc.apps.googleusercontent.com") /\
  (lit "123-abc.apps.googleusercontent.com" <> [] -> parse_qs (urlsplit_query url) =
     [(lit "client_id", [lit "123-abc.apps.googleusercontent.com"]); (lit "redirect_uri", [REDIRECT_URI]);
      (lit "response_type", [lit "code"]); (lit "scope", [join (lit " ") SCOPES]);
      (lit "access_type", [lit "offline"]); (lit "prompt", [lit "consent"])])).
Proof.
  eexists. split; [vm_compute; reflexivity|].
  apply auth_url_decodes; [reflexivity|vm_compute; reflexivity].
Defined.

Section Claims.
Variable fr : str -> str.
Variable fz : str -> bool.
Variable up : Z -> bool.



(** C6 (amended): a credential taken from an environment variable that is set
    to a non-empty value is used as is; when the variable is unset or empty
    the user is prompted and the stripped input line is used (no input line:
    traceback, exit 1); when either value ends up empty the run prints
    [Error: Missing client ID or secret] and exits with 1 after console output
    only, before any listener, browser or network step. *)
Theorem credentials_prompt_and_check w :
  (forall found prompt v stdin, found = Some v -> v <> [] ->
     credential found prompt stdin = ([], inl (v, stdin))) /\
  (forall found prompt l rest, found = None \/ found = Some [] ->
     credential found prompt (l :: rest) = ([Prompt prompt], inl (strip l, rest))) /\
  (forall found prompt, found = None \/ found = Some [] ->
     credential found prompt [] = ([Prompt prompt; Traceback], inr (Exited 1))) /\
  (forall cid sec, snd (get_credentials (environ w) (stdin_lines w)) = inl (cid, sec) ->
     cid = [] \/ sec = [] ->
     exists before,
       run fr fz up w = (before ++ [Out (lit "Error: Missing client ID or secret")], Exited 1)
       /\ forallb is_console before = true) /\
  (forall o, snd (get_credentials (environ w) (stdin_lines w)) = inr o ->
     snd (run fr fz up w) = Exited 1 /\ forallb is_console (fst (run fr fz up w)) = true).
Proof.
  split; [|split; [|split; [|split]]].
  - intros found prompt v stdin -> Hv. unfold credential, missing.
    destruct v; [congruence|reflexivity].
  - intros found prompt l rest [-> | ->]; reflexivity.
  - intros found prompt [-> | ->]; reflexivity.
  - intros cid sec Hg Hempty. rewrite run_phases. unfold prologue.
    pose proof (get_credentials_console (environ w) (stdin_lines w)) as Hc.
    destruct (get_credentials (environ w) (stdin_lines w)) as [evs1 r1].
    cbn [snd fst] in Hg, Hc. subst r1. step_M.
    exists ([Out rule; Out (lit "Google OAuth Refresh Token Generator");
             Out (lit "Scopes: Google Ads + Google Sheets"); Out rule; Out []] ++ evs1).
    destruct cid as [|x cid]; [|destruct sec as [|y sec]; [|destruct Hempty; discriminate]];
      step_M; (split; [reflexivity|cbn [forallb is_console andb]; exact Hc]).
  - intros o Hg. rewrite run_phases. unfold prologue.
    pose proof (get_credentials_console (environ w) (stdin_lines w)) as Hc.
    destruct (get_credentials (environ w) (stdin_lines w)) as [evs1 r1] eqn:Eg.
    cbn [snd fst] in Hg, Hc. subst r1. rewrite (get_credentials_fail _ _ _ _ Eg). step_M.
    split; [reflexivity|]. cbn [fst forallb is_console andb]. exact Hc.
Qed.

(** C7: when the token endpoint answers with an HTTP error status, the run
    exits with status 1 after exactly one token request; when the body is
    valid UTF-8 the last output is [Error: ] followed by the body.  When it
    is not, the strict [.decode()] raises and the run ends in a traceback
    without printing the body (see [non_utf8_error_body_not_printed]). *)
Theorem token_http_error_exits w st body :
  token_endpoint w = TokHTTPError st body ->
  (exists p, In p (fst (run fr fz up w)) /\ is_post p = true) ->
  snd (run fr fz up w) = Exited 1 /\
  List.length (filter is_post (fst (run fr fz up w))) = 1%nat /\
  (forall text, decode_strict body = Some text ->
     exists before, fst (run fr fz up w) = before ++ [Out (lit "Error: " ++ text)]) /\
  (decode_strict body = None ->
     exists before, fst (run fr fz up w) = before ++ [Traceback]).
Proof.
  intros Ht Hp. pose proof Hp as (p & Hin & Hpost).
  apply run_post in Hp as (before & cid & sec & code & Hr & Hb).
  rewrite Hr in Hin |- *. cbn [fst snd] in Hin |- *.
  unfold after_callback, token_exchanger in Hin |- *. rewrite Ht in Hin |- *.
  destruct (urlencode (token_params cid sec code)) as [data|].
  - destruct (decode_strict body) as [text|]; step_M; cbn [fst snd].
    + split; [reflexivity|split; [|split]].
      * rewrite filter_app, no_post_filter by exact Hb. reflexivity.
      * intros t Ht'. injection Ht' as <-.
        exists (before ++ [ServerClose; Out (nl ++ lit "Exchanging code for tokens...");
                           Post TOKEN_URI data]).
        rewrite <- app_assoc. reflexivity.
      * discriminate.
    + split; [reflexivity|split; [|split]].
      * rewrite filter_app, no_post_filter by exact Hb. reflexivity.
      * discriminate.
      * intros _. exists (before ++ [ServerClose; Out (nl ++ lit "Exchanging code for tokens...");
                                     Post TOKEN_URI data]).
        rewrite <- app_assoc. reflexivity.
  - exfalso. step_M_in Hin. apply in_app_or in Hin as [Hin|Hin].
    + rewrite (no_post_in _ _ Hb Hin) in Hpost. discriminate.
    + destruct Hin as [<-|[<-|[<-|[]]]]; discriminate.
Qed.



End Claims.





(** A client id variable set to the empty string is prompted for like an
    unset one, and the run goes on to succeed with the typed value. *)
Lemma empty_env_id_prompted :
  dict_get (environ w_empty_id) (lit "GOOGLE_ADS_CLIENT_ID") = Some [] /\
  In (Prompt (lit "Enter GOOGLE_ADS_CLIENT_ID: ")) (fst (run_ex w_empty_id)) /\
  snd (get_credentials (environ w_empty_id) (stdin_lines w_empty_id))
  = inl (lit "123-abc.apps.googleusercontent.com", lit "s3cret") /\
  snd (run_ex w_empty_id) = Exited 0.
Proof.
  split; [vm_compute; reflexivity|split; [|split; vm_compute; reflexivity]].
  vm_compute. repeat (first [left; reflexivity | right]).
Qed.

Lemma token_http_error_exits_witness :
  snd (run_ex w_invalid_grant) = Exited 1 /\
  List.length (filter is_post (fst (run_ex w_invalid_grant))) = 1%nat /\
  (forall text, decode_strict body_invalid_grant = Some text ->
     exists before, fst (run_ex w_invalid_grant) = before ++ [Out (lit "Error: " ++ text)]) /\
  (decode_strict body_invalid_grant = None ->
     exists before, fst (run_ex w_invalid_grant) = before ++ [Traceback]).
Proof.
  apply (token_http_error_exits ex_float_repr ex_float_is_zero ex_printable w_invalid_grant 400
           body_invalid_grant).
  - reflexivity.
  - apply existsb_exists. vm_compute. reflexivity.
Defined.

(** An error body that is not UTF-8 is not printed: the run ends in a
    traceback and no output line starts with [Error: ]. *)
Lemma non_utf8_error_body_not_printed :
  decode_strict body_not_utf8 = None /\
  snd (run_ex w_bad_gateway) = Exited 1 /\
  last (fst (run_ex w_bad_gateway)) Listen = Traceback /\
  forallb (fun e => match e with Out s => negb (prefixb (lit "Error: ") s) | _ => true end)
    (fst (run_ex w_bad_gateway)) = true.
Proof. vm_compute. repeat split. Qed.




(** ** Further properties of the script and of the library code it calls *)

Section Extra.
Variable fr : str -> str.
Variable fz : str -> bool.
Variable up : Z -> bool.

(** X1: whatever happens later, every run starts by printing the banner:
    a rule of 60 ['='], the title, the scopes line, the same rule and an
    empty line. *)
Theorem run_banner w :
  exists rest, fst (run fr fz up w)
    = Out (repeat 61 60) :: Out (lit "Google OAuth Refresh Token Generator")
      :: Out (lit "Scopes: Google Ads + Google Sheets") :: Out (repeat 61 60) :: Out [] :: rest.
Proof.
  enough (exists rest, fst (run fr fz up w) = banner ++ rest) as [rest Hr]
    by (exists rest; exact Hr).
  rewrite run_phases. pose proof (prologue_spec w) as H.
  destruct (prologue w) as [evs [[cid sec]|o]].
  - destruct H as (evs1 & url & _ & _ & _ & _ & _ & ->).
    destruct (serve None (incoming w)) as [sevs [[code rest]|]]; cbn [fst];
      eexists; rewrite <- !app_assoc; reflexivity.
  - destruct H as (_ & _ & rest & ->). exists rest. reflexivity.
Qed.

(** X2: a run either exits with status 0, exits with status 1, or blocks
    in the listener; no other exit status occurs. *)
Theorem run_exit_status w :
  snd (run fr fz up w) = Exited 0 \/ snd (run fr fz up w) = Exited 1 \/ snd (run fr fz up w) = Blocked.
Proof.
  rewrite run_phases. pose proof (prologue_spec w) as H.
  destruct (prologue w) as [evs [[cid sec]|o]].
  - destruct (serve None (incoming w)) as [sevs [[code rest]|]]; cbn [snd]; [|auto].
    pose proof (after_callback_spec fr fz up cid sec code (token_endpoint w)) as Ha.
    destruct (after_callback fr fz up cid sec code (token_endpoint w)) as [aevs [u|o]];
      cbn [snd]; [auto|].
    destruct Ha as [-> _]. auto.
  - destruct H as [-> _]. auto.
Qed.

(** X3: a run exits with status 0 only after closing the listener, making
    one token request and printing the success report; the token printed is
    the truthy refresh_token value of the JSON object of a 2xx answer. *)
Theorem run_exit_zero w :
  snd (run fr fz up w) = Exited 0 ->
  exists before v data body text d,
    fst (run fr fz up w)
    = before ++ [ServerClose; Out (nl ++ lit "Exchanging code for tokens..."); Post TOKEN_URI data]
      ++ success_report (py_str fr up v)
    /\ token_endpoint w = TokOK body /\ decode_strict body = Some text
    /\ json_loads text = Some (PDict d) /\ dict_get d (lit "refresh_token") = Some v
    /\ truthy fz v = true
    /\ In Listen before /\ forallb (fun e => negb (is_post e)) before = true.
Proof.
  rewrite run_phases. pose proof (prologue_spec w) as H.
  destruct (prologue w) as [evs [[cid sec]|o]].
  2:{ destruct H as [-> _]. discriminate. }
  destruct H as (evs1 & url & Hg & _ & _ & _ & _ & ->).
  pose proof (get_credentials_console (environ w) (stdin_lines w)) as Hc.
  rewrite Hg in Hc. cbn [fst] in Hc.
  pose proof (serve_served None (incoming w)) as Hs.
  destruct (serve None (incoming w)) as [sevs [[code rest]|]]; cbn [fst snd] in Hs |- *;
    [|discriminate].
  pose proof (after_callback_spec fr fz up cid sec code (token_endpoint w)) as Ha.
  destruct (after_callback fr fz up cid sec code (token_endpoint w)) as [aevs [u|o]]; cbn [fst snd];
    [|destruct Ha as [-> _]; discriminate].
  intros _. destruct Ha as (v & data & body & text & d & Hd & Ht & He & Hdec & Hj & Hr & ->).
  exists ((banner ++ evs1 ++ [Out (lit "Opening browser for authorization..."); open_hint url;
                               Listen; Browser url; Out (lit "Waiting for authorization...")]) ++ sevs),
    v, data, body, text, d.
  split; [rewrite <- !app_assoc; reflexivity|].
  repeat split; try assumption.
  - apply in_or_app; left. apply in_or_app; right. apply in_or_app; right.
    right; right; left; reflexivity.
  - rewrite !forallb_app.
    assert (forallb (fun e => negb (is_post e)) evs1 = true) as ->
      by (revert Hc; apply forallb_weaken; intros [] Hx; cbn in Hx |- *; congruence).
    assert (forallb (fun e => negb (is_post e)) sevs = true) as ->
      by (revert Hs; apply forallb_weaken; intros [] Hx; cbn in Hx |- *; congruence).
    reflexivity.
Qed.


(** X5: a run makes at most one request to the token endpoint. *)
Theorem run_single_post w : (List.length (filter is_post (fst (run fr fz up w))) <= 1)%nat.
Proof.
  rewrite run_phases. pose proof (prologue_spec w) as H.
  destruct (prologue w) as [evs [[cid sec]|o]].
  2:{ destruct H as (_ & Hc & _). cbn [fst]. rewrite no_post_filter; [cbn; lia|].
      revert Hc; apply forallb_weaken; intros [] Hx; cbn in Hx |- *; congruence. }
  destruct H as (evs1 & url & Hg & _ & _ & _ & _ & ->).
  pose proof (get_credentials_console (environ w) (stdin_lines w)) as Hc.
  rewrite Hg in Hc. cbn [fst] in Hc.
  assert (filter is_post evs1 = []) as He1
    by (apply no_post_filter; revert Hc; apply forallb_weaken; intros [] Hx; cbn in Hx |- *; congruence).
  pose proof (serve_served None (incoming w)) as Hs.
  assert (filter is_post (fst (serve None (incoming w))) = []) as Hsv
    by (apply no_post_filter; revert Hs; apply forallb_weaken; intros [] Hx; cbn in Hx |- *; congruence).
  destruct (serve None (incoming w)) as [sevs [[code rest]|]]; cbn [fst] in Hsv |- *.
  - pose proof (after_callback_spec fr fz up cid sec code (token_endpoint w)) as Ha.
    destruct (after_callback fr fz up cid sec code (token_endpoint w)) as [aevs [u|o]]; cbn [fst].
    + destruct Ha as (v & data & _ & _ & _ & _ & _ & _ & _ & _ & _ & ->).
      rewrite !filter_app, He1, Hsv, filter_post_report. cbn. lia.
    + destruct Ha as (_ & rest' & -> & _ & Hl & _).
      rewrite !filter_app, He1, Hsv. cbn [filter is_post app]. exact Hl.
  - rewrite !filter_app, He1, Hsv. cbn. lia.
Qed.

(** X6: every token request goes to TOKEN_URI after the listener is
    closed, and its body is the urlencoding of the credentials read and the
    code the listener captured. *)
Theorem run_post_data w u data :
  In (Post u data) (fst (run fr fz up w)) ->
  u = TOKEN_URI /\
  exists cid sec code rest before after,
    snd (get_credentials (environ w) (stdin_lines w)) = inl (cid, sec)
    /\ snd (serve None (incoming w)) = Some (code, rest)
    /\ urlencode (token_params cid sec code) = Some data
    /\ fst (run fr fz up w) = before ++ ServerClose :: after /\ In (Post u data) after.
Proof.
  rewrite run_phases. pose proof (prologue_spec w) as H.
  destruct (prologue w) as [evs [[cid sec]|o]].
  2:{ destruct H as (_ & Hc & _). cbn [fst]. intro Hin. no_in Hin Hc. }
  destruct H as (evs1 & url & Hg & _ & _ & _ & _ & ->).
  pose proof (get_credentials_console (environ w) (stdin_lines w)) as Hc.
  rewrite Hg in Hc. cbn [fst] in Hc.
  pose proof (serve_served None (incoming w)) as Hs.
  destruct (serve None (incoming w)) as [sevs [[code rest]|]]; cbn [fst snd] in Hs |- *.
  2:{ intro Hin. apply in_app_or in Hin as [Hin|Hin]; [|no_in Hin Hs].
      apply in_app_or in Hin as [Hin|Hin]; [destruct Hin as [Hin|[Hin|[Hin|[Hin|[Hin|[]]]]]]; discriminate Hin|].
      apply in_app_or in Hin as [Hin|Hin]; [no_in Hin Hc|].
      destruct Hin as [Hin|[Hin|[Hin|[Hin|[Hin|[]]]]]]; discriminate Hin. }
  assert (In (Post u data) ((banner ++ evs1 ++
            [Out (lit "Opening browser for authorization..."); open_hint url; Listen; Browser url;
             Out (lit "Waiting for authorization...")]) ++ sevs) -> False) as Hpre.
  { intros Hin. apply in_app_or in Hin as [Hin|Hin]; [|no_in Hin Hs].
    apply in_app_or in Hin as [Hin|Hin]; [destruct Hin as [Hin|[Hin|[Hin|[Hin|[Hin|[]]]]]]; discriminate Hin|].
    apply in_app_or in Hin as [Hin|Hin]; [no_in Hin Hc|].
    destruct Hin as [Hin|[Hin|[Hin|[Hin|[Hin|[]]]]]]; discriminate Hin. }
  pose proof (after_callback_spec fr fz up cid sec code (token_endpoint w)) as Ha.
  destruct (after_callback fr fz up cid sec code (token_endpoint w)) as [aevs [v0|o]]; cbn [fst].
  - destruct Ha as (v & data' & body & text & d & Hd & _ & _ & _ & _ & _ & ->).
    intro Hin. rewrite app_assoc in Hin. apply in_app_or in Hin as [Hin|Hin]; [destruct (Hpre Hin)|].
    assert (u = TOKEN_URI /\ data = data') as [-> ->].
    { destruct Hin as [Hin|[Hin|[Hin|Hin]]]; try discriminate Hin.
      - injection Hin as -> ->. split; reflexivity.
      - exfalso. apply (not_in_forallb is_console _ _ (forallb_report _ _ (fun s => eq_refl))) in Hin;
          [exact Hin|reflexivity]. }
    split; [reflexivity|].
    exists cid, sec, code, rest,
      ((banner ++ evs1 ++ [Out (lit "Opening browser for authorization..."); open_hint url; Listen;
                           Browser url; Out (lit "Waiting for authorization...")]) ++ sevs),
      ([Out (nl ++ lit "Exchanging code for tokens..."); Post TOKEN_URI data'] ++ success_report (py_str fr up v)).
    split; [rewrite Hg; reflexivity|]. split; [reflexivity|]. split; [exact Hd|].
    split; [rewrite <- !app_assoc; reflexivity|]. right; left; reflexivity.
  - destruct Ha as (_ & rest' & -> & _ & _ & Hp).
    intro Hin. rewrite app_assoc in Hin. apply in_app_or in Hin as [Hin|Hin]; [destruct (Hpre Hin)|].
    destruct Hin as [Hin|[Hin|Hin]]; try discriminate Hin.
    destruct (Hp u data Hin) as [-> Hd]. split; [reflexivity|].
    exists cid, sec, code, rest,
      ((banner ++ evs1 ++ [Out (lit "Opening browser for authorization..."); open_hint url; Listen;
                           Browser url; Out (lit "Waiting for authorization...")]) ++ sevs),
      (Out (nl ++ lit "Exchanging code for tokens...") :: rest').
    split; [rewrite Hg; reflexivity|]. split; [reflexivity|]. split; [exact Hd|].
    split; [rewrite <- !app_assoc; reflexivity|]. right; exact Hin.
Qed.

(** X7: when port 8080 is taken the run exits with status 1, having only
    written to the console: no browser, no request served, no token request.
    With accepted credentials, the failed bind is reported right after the
    authorization URL is printed, so it comes before the browser would be
    opened. *)
Theorem run_port_busy w :
  port_8080_free w = false ->
  snd (run fr fz up w) = Exited 1 /\ forallb is_console (fst (run fr fz up w)) = true
  /\ forall cid sec url,
       snd (get_credentials (environ w) (stdin_lines w)) = inl (cid, sec) ->
       cid <> [] -> sec <> [] -> auth_url_of cid = Some url ->
       fst (run fr fz up w)
       = banner ++ fst (get_credentials (environ w) (stdin_lines w))
         ++ [Out (lit "Opening browser for authorization..."); open_hint url; Traceback].
Proof.
  intro Hp. rewrite run_phases. pose proof (prologue_spec w) as H.
  destruct (prologue w) as [evs [[cid sec]|o]] eqn:Epro.
  - destruct H as (_ & _ & _ & _ & _ & _ & Hp' & _). congruence.
  - destruct H as (-> & Hc & _). split; [reflexivity|]. split; [exact Hc|].
    intros cid sec url Hg Hcid Hsec Hu. cbn [fst].
    unfold prologue in Epro.
    destruct (get_credentials (environ w) (stdin_lines w)) as [evs1 [[cid' sec']|o']];
      cbn [snd] in Hg; [|discriminate Hg].
    injection Hg as -> ->. step_M_in Epro.
    destruct cid as [|c cid]; [contradiction|]. destruct sec as [|d sec]; [contradiction|].
    step_M_in Epro. rewrite Hu in Epro. step_M_in Epro. rewrite Hp in Epro. step_M_in Epro.
    injection Epro as <-. cbn [fst]. unfold banner, open_hint. reflexivity.
Qed.

(** X8: the browser is opened only on the authorization URL built from the
    client id read, right after the same URL is printed and the listener is
    started. *)
Theorem run_browser w url :
  In (Browser url) (fst (run fr fz up w)) ->
  exists before after cid sec,
    fst (run fr fz up w)
    = before ++ [open_hint url; Listen; Browser url; Out (lit "Waiting for authorization...")] ++ after
    /\ snd (get_credentials (environ w) (stdin_lines w)) = inl (cid, sec)
    /\ auth_url_of cid = Some url.
Proof.
  rewrite run_phases. pose proof (prologue_spec w) as H.
  destruct (prologue w) as [evs [[cid sec]|o]].
  2:{ destruct H as (_ & Hc & _). cbn [fst]. intro Hin. no_in Hin Hc. }
  destruct H as (evs1 & url' & Hg & _ & _ & Hu & _ & ->).
  pose proof (get_credentials_console (environ w) (stdin_lines w)) as Hc.
  rewrite Hg in Hc. cbn [fst] in Hc.
  pose proof (serve_served None (incoming w)) as Hs.
  assert (forall tail, forallb (fun e => negb (match e with Browser _ => true | _ => false end)) tail = true ->
            In (Browser url) ((banner ++ evs1 ++ [Out (lit "Opening browser for authorization...");
                 open_hint url'; Listen; Browser url'; Out (lit "Waiting for authorization...")]) ++ tail) ->
            exists before after,
              (banner ++ evs1 ++ [Out (lit "Opening browser for authorization..."); open_hint url';
                 Listen; Browser url'; Out (lit "Waiting for authorization...")]) ++ tail
              = before ++ [open_hint url; Listen; Browser url; Out (lit "Waiting for authorization...")] ++ after
              /\ url' = url) as Hshape.
  { intros tail Ht Hin. apply in_app_or in Hin as [Hin|Hin]; [|no_in Hin Ht].
    apply in_app_or in Hin as [Hin|Hin]; [destruct Hin as [Hin|[Hin|[Hin|[Hin|[Hin|[]]]]]]; discriminate Hin|].
    apply in_app_or in Hin as [Hin|Hin]; [no_in Hin Hc|].
    destruct Hin as [Hin|[Hin|[Hin|[Hin|[Hin|[]]]]]]; try discriminate Hin.
    injection Hin as ->.
    exists (banner ++ evs1 ++ [Out (lit "Opening browser for authorization...")]), tail.
    split; [rewrite <- !app_assoc; reflexivity|reflexivity]. }
  destruct (serve None (incoming w)) as [sevs [[code rest]|]]; cbn [fst snd] in Hs |- *; intro Hin.
  - destruct (Hshape (sevs ++ fst (after_callback fr fz up cid sec code (token_endpoint w))))
      as (before & after & He & <-).
    + rewrite forallb_app.
      assert (forallb (fun e => negb (match e with Browser _ => true | _ => false end)) sevs = true) as ->
        by (revert Hs; apply forallb_weaken; intros [] Hx; cbn in Hx |- *; congruence).
      pose proof (after_callback_events fr fz up cid sec code (token_endpoint w)) as Ha.
      revert Ha; apply forallb_weaken; intros [] Hx; cbn in Hx |- *; congruence.
    + exact Hin.
    + exists before, after, cid, sec. rewrite He. split; [reflexivity|]. split; [rewrite Hg; reflexivity|exact Hu].
  - destruct (Hshape sevs) as (before & after & He & <-).
    + revert Hs; apply forallb_weaken; intros [] Hx; cbn in Hx |- *; congruence.
    + exact Hin.
    + exists before, after, cid, sec. rewrite He. split; [reflexivity|]. split; [rewrite Hg; reflexivity|exact Hu].
Qed.

End Extra.

(** X9: when neither variable is set, the client id is prompted for first
    and taken from the first input line, the secret from the second, both
    stripped; with a single input line the second prompt raises. *)
Theorem get_credentials_order env l1 l2 rest :
  missing (dict_get env (lit "GOOGLE_ADS_CLIENT_ID")) = true ->
  missing (dict_get env (lit "GOOGLE_ADS_CLIENT_SECRET")) = true ->
  get_credentials env (l1 :: l2 :: rest)
  = ([Prompt (lit "Enter GOOGLE_ADS_CLIENT_ID: "); Prompt (lit "Enter GOOGLE_ADS_CLIENT_SECRET: ")],
     inl (strip l1, strip l2))
  /\ get_credentials env [l1]
     = ([Prompt (lit "Enter GOOGLE_ADS_CLIENT_ID: "); Prompt (lit "Enter GOOGLE_ADS_CLIENT_SECRET: ");
         Traceback], inr (Exited 1)).
Proof.
  intros H1 H2. unfold get_credentials. cbv zeta. unfold credential. rewrite H1, H2.
  unfold input. step_M. split; reflexivity.
Qed.

(** X14: UTF-8 encoding of a text without lone surrogates succeeds, and
    decoding the bytes (strictly or with replacement) gives the text back. *)
Theorem utf8_roundtrip s :
  encodable s = true ->
  exists bs, utf8_encode s = Some bs /\ decode_strict bs = Some s /\ decode_replace bs = s.
Proof.
  unfold encodable. intro H. apply andb_true_iff in H as [Hv Hs]. apply negb_true_iff in Hs.
  destruct (utf8_encode_some s Hs) as [bs Ebs]. exists bs.
  destruct (utf8_encode_dec s bs Hv Ebs) as [Hd _].
  split; [exact Ebs|]. split.
  - unfold decode_strict. rewrite Hd. apply all_some_map.
  - apply decode_replace_map. exact Hd.
Qed.

(** X15: [urlencode] raises when a key or a value holds a lone surrogate. *)
Theorem urlencode_surrogate kvs :
  existsb (fun kv => existsb is_surrogate (fst kv) || existsb is_surrogate (snd kv)) kvs = true ->
  urlencode kvs = None.
Proof.
  intro H. unfold urlencode.
  enough (urlencode_pairs kvs = None) as -> by reflexivity.
  revert H. induction kvs as [|[k v] kvs IH]; intro H; [discriminate H|].
  cbn [existsb fst snd] in H. cbn [urlencode_pairs].
  apply orb_true_iff in H as [H|H]; [apply orb_true_iff in H as [H|H]|].
  - unfold quote_plus at 1. rewrite (utf8_encode_none k H). reflexivity.
  - destruct (quote_plus k); [|reflexivity].
    unfold quote_plus. rewrite (utf8_encode_none v H). reflexivity.
  - rewrite (IH H). destruct (quote_plus k); destruct (quote_plus v); reflexivity.
Qed.

(** X16: [quote_plus] of an encodable text is undone by [unquote_plus], and
    its output holds only letters, digits, [_.-~], ['+'] and ['%']. *)
Theorem quote_plus_unquote s :
  encodable s = true ->
  exists q, quote_plus s = Some q /\ unquote_plus q = s /\ forallb qchar q = true.
Proof.
  unfold encodable. intro H. apply andb_true_iff in H as [Hv Hs]. apply negb_true_iff in Hs.
  destruct (quote_plus_some s Hs) as [q Eq]. exists q. split; [exact Eq|].
  exact (quote_plus_roundtrip s q Hv Eq).
Qed.

(** X17: [parse_qsl(..., keep_blank_values=True)] of [urlencode] of pairs
    with encodable texts and non-empty keys gives the pairs back, in order. *)
Theorem urlencode_roundtrip kvs :
  Forall (fun kv => encodable (fst kv) = true /\ encodable (snd kv) = true /\ fst kv <> []) kvs ->
  exists q, urlencode kvs = Some q /\ parse_qsl true q = kvs.
Proof.
  intro H.
  destruct (urlencode_pairs_some kvs) as [parts Ep].
  { revert H. apply Forall_impl. intros kv (Hk & Hv & _). unfold encodable in Hk, Hv.
    apply andb_true_iff in Hk as [_ Hk]. apply andb_true_iff in Hv as [_ Hv].
    apply negb_true_iff in Hk. apply negb_true_iff in Hv. split; assumption. }
  assert (Forall (encodable_pair true) kvs) as Hg.
  { revert H. apply Forall_impl. intros kv (Hk & Hv & Hne). unfold encodable in Hk, Hv.
    apply andb_true_iff in Hk as [Hk _]. apply andb_true_iff in Hv as [Hv _].
    repeat split; try assumption. discriminate. }
  destruct (urlencode_pairs_parts true kvs parts Ep Hg) as (Hf & Hp & _).
  exists (join [38] parts). split; [unfold urlencode; rewrite Ep; reflexivity|].
  rewrite parse_qsl_join by exact Hp. exact Hf.
Qed.

(** X12: [parse_qs] maps a name to its non-empty values in the order they
    appear, and a name with no non-empty value is absent; no name is mapped
    to an empty list. *)
Theorem parse_qs_lookup q k :
  dict_get (parse_qs q) k = match filter nonblank (param_values k q) with [] => None | vs => Some vs end
  /\ dict_get (parse_qs q) k <> Some [].
Proof.
  rewrite parse_qs_get_first. split; [reflexivity|].
  destruct (filter nonblank (param_values k q)); discriminate.
Qed.

(** X13: after [d[k] = v], looking up [k] gives [v] and any other key gives
    what it gave before; an existing key keeps its place and a new key is
    added last. *)
Theorem dict_set_spec {V} (d : dict V) k v k' :
  dict_get (dict_set d k v) k' = (if list_eq_dec Z.eq_dec k' k then Some v else dict_get d k')
  /\ map fst (dict_set d k v) = match dict_get d k with Some _ => map fst d | None => map fst d ++ [k] end.
Proof.
  split; [apply dict_get_set|].
  induction d as [|[k0 v0] d IH]; [reflexivity|].
  cbn [dict_set dict_get]. destruct (list_eq_dec Z.eq_dec k k0); [reflexivity|].
  cbn [map fst]. rewrite IH. destruct (dict_get d k); reflexivity.
Qed.

(** X18: [repr] of printable ASCII text without backslash or double quote
    is the text between single quotes, or between double quotes when it
    holds a single quote. *)
Theorem str_repr_ascii up s :
  forallb (fun c => (32 <=? c) && (c <=? 126) && negb (c =? 92) && negb (c =? 34)) s = true ->
  str_repr up s = if existsb (Z.eqb 39) s then [34] ++ s ++ [34] else [39] ++ s ++ [39].
Proof.
  intro H. unfold str_repr. cbv zeta.
  assert (existsb (Z.eqb 34) s = false) as H34.
  { apply not_true_iff_false. intro He. apply existsb_exists in He as (c & Hin & Hc).
    apply forallb_forall with (x := c) in H; [|exact Hin].
    apply Z.eqb_eq in Hc. subst c. discriminate H. }
  rewrite H34. destruct (existsb (Z.eqb 39) s) eqn:E39; cbn [andb negb].
  - do 2 f_equal. apply flat_map_single. intros c Hin.
    apply forallb_forall with (x := c) in H; [|exact Hin].
    repeat rewrite andb_true_iff in H. destruct H as [[[H1 H2] H3] H4].
    apply Z.leb_le in H1. apply Z.leb_le in H2.
    apply negb_true_iff, Z.eqb_neq in H3. apply negb_true_iff, Z.eqb_neq in H4.
    zbool. reflexivity.
  - do 2 f_equal. apply flat_map_single. intros c Hin.
    assert (c <> 39) as H5.
    { intro Hc. subst c. assert (existsb (Z.eqb 39) s = true) as Hx
        by (apply existsb_exists; exists 39; split; [exact Hin|reflexivity]). congruence. }
    apply forallb_forall with (x := c) in H; [|exact Hin].
    repeat rewrite andb_true_iff in H. destruct H as [[[H1 H2] H3] H4].
    apply Z.leb_le in H1. apply Z.leb_le in H2.
    apply negb_true_iff, Z.eqb_neq in H3. apply negb_true_iff, Z.eqb_neq in H4.
    zbool. reflexivity.
Qed.

(** X10: [strip] removes exactly a whitespace prefix and a whitespace
    suffix: what is left starts and ends with a non-whitespace character (or
    is empty), and stripping again changes nothing. *)
Theorem strip_spec s :
  exists pre post,
    s = pre ++ strip s ++ post /\ forallb py_isspace pre = true /\ forallb py_isspace post = true
    /\ (forall c, hd_error (strip s) = Some c -> py_isspace c = false)
    /\ (forall c, hd_error (rev (strip s)) = Some c -> py_isspace c = false)
    /\ strip (strip s) = strip s.
Proof.
  unfold strip. destruct (lstrip_spec s) as (p1 & E1 & P1 & H1).
  set (t := lstrip s) in *.
  destruct (lstrip_spec (rev t)) as (p2 & E2 & P2 & H2).
  set (u := lstrip (rev t)) in *.
  assert (t = rev u ++ rev p2) as Et by (rewrite <- (rev_involutive t), E2, rev_app_distr; reflexivity).
  assert (forall c, hd_error (rev u) = Some c -> py_isspace c = false) as Hh.
  { intros c Hc. apply H1. rewrite Et. destruct (rev u); [discriminate Hc|exact Hc]. }
  exists p1, (rev p2). split; [|split; [exact P1|split; [rewrite forallb_rev; exact P2|]]].
  - rewrite E1 at 1. rewrite Et. reflexivity.
  - split; [exact Hh|]. split; [rewrite rev_involutive; exact H2|].
    rewrite (lstrip_id (rev u) Hh), rev_involutive, (lstrip_id u H2). reflexivity.
Qed.

(** X11: the handler raises only when [urlparse] rejects the path; it then
    sends no reply and leaves the recorded code as it was.  Otherwise it
    either records a non-empty code and answers 200 with the success page, or
    keeps the recorded code and answers 400 with an error page. *)
Theorem do_GET_outcome a p :
  (urlsplit_ok p = false /\ do_GET a p = (a, HandlerException))
  \/ (urlsplit_ok p = true /\
      ((exists c, c <> [] /\ do_GET a p = (Some c, Response 200 success_page))
       \/ (exists e, do_GET a p = (a, Response 400 (error_page e))))).
Proof.
  rewrite do_GET_spec.
  destruct (urlsplit_ok p) eqn:Eok; [right; split; [reflexivity|]|left; split; reflexivity].
  destruct (first_nonblank (lit "code") (urlsplit_query p)) as [c|] eqn:E.
  - left. exists c. split; [|reflexivity].
    unfold first_nonblank in E.
    destruct (filter nonblank (param_values (lit "code") (urlsplit_query p))) as [|x xs] eqn:F;
      [discriminate E|].
    cbn [hd_error] in E. injection E as <-.
    assert (In x (filter nonblank (param_values (lit "code") (urlsplit_query p)))) as Hx
      by (rewrite F; left; reflexivity).
    apply filter_In in Hx as [_ Hx]. destruct x; [discriminate Hx|discriminate].
  - right. eexists. reflexivity.
Qed.


Lemma run_exit_zero_witness :
  snd (run_ex w_ok) = Exited 0 /\
  exists before v data body text d,
    fst (run_ex w_ok)
    = before ++ [ServerClose; Out (nl ++ lit "Exchanging code for tokens..."); Post TOKEN_URI data]
      ++ success_report (py_str ex_float_repr ex_printable v)
    /\ token_endpoint w_ok = TokOK body /\ decode_strict body = Some text
    /\ json_loads text = Some (PDict d) /\ dict_get d (lit "refresh_token") = Some v
    /\ truthy ex_float_is_zero v = true
    /\ In Listen before /\ forallb (fun e => negb (is_post e)) before = true.
Proof.
  split; [vm_compute; reflexivity|].
  apply (run_exit_zero ex_float_repr ex_float_is_zero ex_printable w_ok).
  vm_compute. reflexivity.
Defined.


Lemma run_post_data_witness :
  In (Post TOKEN_URI ex_token_data) (fst (run_ex w_ok)) /\
  TOKEN_URI = TOKEN_URI /\
  exists cid sec code rest before after,
    snd (get_credentials (environ w_ok) (stdin_lines w_ok)) = inl (cid, sec)
    /\ snd (serve None (incoming w_ok)) = Some (code, rest)
    /\ urlencode (token_params cid sec code) = Some ex_token_data
    /\ fst (run_ex w_ok) = before ++ ServerClose :: after /\ In (Post TOKEN_URI ex_token_data) after.
Proof.
  assert (In (Post TOKEN_URI ex_token_data) (fst (run_ex w_ok))) as H
    by (vm_compute; repeat (first [left; reflexivity | right])).
  split; [exact H|].
  exact (run_post_data ex_float_repr ex_float_is_zero ex_printable w_ok TOKEN_URI ex_token_data H).
Defined.

Lemma run_port_busy_witness :
  port_8080_free w_port_busy = false /\
  snd (run_ex w_port_busy) = Exited 1 /\ forallb is_console (fst (run_ex w_port_busy)) = true
  /\ forall cid sec url,
       snd (get_credentials (environ w_port_busy) (stdin_lines w_port_busy)) = inl (cid, sec) ->
       cid <> [] -> sec <> [] -> auth_url_of cid = Some url ->
       fst (run_ex w_port_busy)
       = banner ++ fst (get_credentials (environ w_port_busy) (stdin_lines w_port_busy))
         ++ [Out (lit "Opening browser for authorization..."); open_hint url; Traceback].
Proof.
  split; [reflexivity|].
  apply (run_port_busy ex_float_repr ex_float_is_zero ex_printable w_port_busy). reflexivity.
Defined.

Lemma run_browser_witness :
  In (Browser ex_auth_url) (fst (run_ex w_ok)) /\
  exists before after cid sec,
    fst (run_ex w_ok)
    = before ++ [open_hint ex_auth_url; Listen; Browser ex_auth_url;
                 Out (lit "Waiting for authorization...")] ++ after
    /\ snd (get_credentials (environ w_ok) (stdin_lines w_ok)) = inl (cid, sec)
    /\ auth_url_of cid = Some ex_auth_url.
Proof.
  assert (In (Browser ex_auth_url) (fst (run_ex w_ok))) as H
    by (vm_compute; repeat (first [left; reflexivity | right])).
  split; [exact H|].
  exact (run_browser ex_float_repr ex_float_is_zero ex_printable w_ok ex_auth_url H).
Defined.

Lemma get_credentials_order_witness :
  get_credentials [] [lit "  123-abc.apps.googleusercontent.com "; lit "s3cret"]
  = ([Prompt (lit "Enter GOOGLE_ADS_CLIENT_ID: "); Prompt (lit "Enter GOOGLE_ADS_CLIENT_SECRET: ")],
     inl (strip (lit "  123-abc.apps.googleusercontent.com "), strip (lit "s3cret")))
  /\ get_credentials [] [lit "  123-abc.apps.googleusercontent.com "]
     = ([Prompt (lit "Enter GOOGLE_ADS_CLIENT_ID: "); Prompt (lit "Enter GOOGLE_ADS_CLIENT_SECRET: ");
         Traceback], inr (Exited 1)).
Proof.
  apply (get_credentials_order [] (lit "  123-abc.apps.googleusercontent.com ") (lit "s3cret") []);
    reflexivity.
Defined.

Lemma utf8_roundtrip_witness :
  exists bs, utf8_encode [104; 233; 8364; 128512] = Some bs
             /\ decode_strict bs = Some [104; 233; 8364; 128512]
             /\ decode_replace bs = [104; 233; 8364; 128512].
Proof. apply utf8_roundtrip. vm_compute. reflexivity. Defined.

Lemma urlencode_surrogate_witness : urlencode [(lit "client_id", [97; 55357; 98])] = None.
Proof. apply urlencode_surrogate. vm_compute. reflexivity. Defined.

Lemma quote_plus_unquote_witness :
  exists q, quote_plus (lit "4/0 AbCd+" ++ [233]) = Some q
            /\ unquote_plus q = lit "4/0 AbCd+" ++ [233] /\ forallb qchar q = true.
Proof. apply quote_plus_unquote. vm_compute. reflexivity. Defined.

Lemma urlencode_roundtrip_witness :
  exists q, urlencode (token_params (lit "123-abc.apps.googleusercontent.com") (lit "s3cret") (lit "4/0AbCd")) = Some q
            /\ parse_qsl true q
               = token_params (lit "123-abc.apps.googleusercontent.com") (lit "s3cret") (lit "4/0AbCd").
Proof.
  apply urlencode_roundtrip.
  repeat constructor; try (vm_compute; reflexivity); cbn [fst]; discriminate.
Defined.

Lemma str_repr_ascii_witness :
  str_repr ex_printable (lit "it's") = [34] ++ lit "it's" ++ [34].
Proof. apply (str_repr_ascii ex_printable (lit "it's")). vm_compute. reflexivity. Defined.

